(** * Detection fusion, zone geofencing, alert debouncing and pipeline presets

    A shallow embedding of the detection core of the Argos backend:
    - [backend/app/detection/fusion_engine.py]   (module [Fusion])
    - [backend/app/zones/geometry.py]            (module [Zones])
    - [backend/app/alerts/notifier.py]           (module [Alerts])
    - [backend/app/detection/pipeline_manager.py] (module [Pipeline])

    Python floats are modelled as rationals [Q], pixel coordinates
    ([int] in the dataclasses) as [Z]. Python objects that the code mutates
    in place ([Detection]) live in an explicit store, a list indexed by
    location, so that aliasing between a backend's result and the fused
    output is visible. *)

From Stdlib Require Import QArith Qminmax Lqa.
From stdpp Require Import base gmap strings list pretty.

Open Scope Z_scope.

(* ------------------------------------------------------------------ *)
(** ** Shared data model ([base_detector.py]) *)

(** [class BackendType(str, Enum)] *)
Inductive BackendType := YOLO | DEEPLABCUT | SLEAP.

#[global] Instance BackendType_eq_dec : EqDecision BackendType.
Proof. solve_decision. Defined.

(** [BackendType.value] *)
Definition backend_value (b : BackendType) : string :=
  match b with
  | YOLO => "yolo"
  | DEEPLABCUT => "deeplabcut"
  | SLEAP => "sleap"
  end.

(** [@dataclass class Keypoint] *)
Record Keypoint := mkKeypoint {
  kp_x : Z;
  kp_y : Z;
  kp_confidence : Q;
  kp_name : string;
}.

(** [bbox: tuple[int, int, int, int]], i.e. [(x1, y1, x2, y2)]. *)
Definition BBox : Type := (Z * Z * Z * Z)%type.

(** [@dataclass class Detection] (a mutable Python object). *)
Record Detection := mkDetection {
  class_id : Z;
  class_name : string;
  class_name_es : string;
  confidence : Q;
  bbox : BBox;
  keypoints : list Keypoint;
  tracker_id : option Z;
  backend_source : option BackendType;
}.

(* ------------------------------------------------------------------ *)
(** ** Python helpers *)

(** Python [a < b] on floats. *)
Definition qlt (a b : Q) : bool := negb (Qle_bool b a).

(** Python [max(a, b)] and [min(a, b)]: the first argument is kept unless
    the second is strictly larger (resp. smaller). *)
Definition py_max (a b : Q) : Q := if qlt a b then b else a.
Definition py_min (a b : Q) : Q := if qlt b a then b else a.

(** Python [enumerate(xs)]. *)
Definition enumerate {A} (xs : list A) : list (nat * A) :=
  zip (seq 0 (length xs)) xs.

(** [len(xs) == 0] *)
Definition null {A} (xs : list A) : bool :=
  match xs with [] => true | _ => false end.

Module Fusion.

(* ------------------------------------------------------------------ *)
(** ** The object store

    A [Detection] is a reference to a mutable object: [loc] indexes the
    store [heap]. Allocation appends; the Python code never holds a
    dangling reference, so reading outside the store does not happen
    and returns a dummy detection. *)

Abbreviation loc := nat (only parsing).
Abbreviation heap := (list Detection) (only parsing).

Definition dummy_det : Detection :=
  mkDetection 0 "" "" 0 (0, 0, 0, 0) [] None None.

Definition read (h : heap) (l : loc) : Detection :=
  default dummy_det (h !! l).

Definition write (h : heap) (l : loc) (d : Detection) : heap :=
  <[l := d]> h.

(** [Detection(...)]: a fresh object. *)
Definition alloc (h : heap) (d : Detection) : heap * loc :=
  (h ++ [d], length h).

Definition set_backend_source (d : Detection) (b : BackendType) : Detection :=
  {| class_id := class_id d; class_name := class_name d;
     class_name_es := class_name_es d; confidence := confidence d;
     bbox := bbox d; keypoints := keypoints d; tracker_id := tracker_id d;
     backend_source := Some b |}.

Definition set_confidence (d : Detection) (c : Q) : Detection :=
  {| class_id := class_id d; class_name := class_name d;
     class_name_es := class_name_es d; confidence := c;
     bbox := bbox d; keypoints := keypoints d; tracker_id := tracker_id d;
     backend_source := backend_source d |}.

Definition set_keypoints (d : Detection) (k : list Keypoint) : Detection :=
  {| class_id := class_id d; class_name := class_name d;
     class_name_es := class_name_es d; confidence := confidence d;
     bbox := bbox d; keypoints := k; tracker_id := tracker_id d;
     backend_source := backend_source d |}.

(** [@dataclass class DetectionResult]; [detections] holds references. *)
Record DetectionResult := mkDetectionResult {
  detections : list loc;
  inference_time_ms : Q;
  frame_width : Z;
  frame_height : Z;
  backend_type : BackendType;
}.

(** [@dataclass class FusedDetectionResult] *)
Record FusedDetectionResult := mkFused {
  f_detections : list loc;
  f_inference_time_ms : Q;
  f_frame_width : Z;
  f_frame_height : Z;
  backends_used : list BackendType;
  fusion_strategy : string;
  individual_results : list DetectionResult;
}.

(** [class FusionStrategy(str, Enum)] *)
Inductive FusionStrategy := CONSENSUS | CASCADE | PARALLEL_MERGE | WEIGHTED | FIRST_WINS.

Definition strategy_value (s : FusionStrategy) : string :=
  match s with
  | CONSENSUS => "consensus"
  | CASCADE => "cascade"
  | PARALLEL_MERGE => "parallel"
  | WEIGHTED => "weighted"
  | FIRST_WINS => "first_wins"
  end.

(** [@dataclass class FusionConfig]; [backend_weights] is a dict,
    modelled as an association list (lookup returns the first entry). *)
Record FusionConfig := mkFusionConfig {
  strategy : FusionStrategy;
  min_backends_agree : Z;
  iou_threshold : Q;
  prefer_pose_from : option BackendType;
  confidence_aggregation : string;
  backend_weights : list (BackendType * Q);
}.

(* ------------------------------------------------------------------ *)
(** ** [FusionEngine._calculate_iou] *)

Definition calculate_iou (box1 box2 : BBox) : Q :=
  let '(x1_1, y1_1, x2_1, y2_1) := box1 in
  let '(x1_2, y1_2, x2_2, y2_2) := box2 in
  let x1_i := Z.max x1_1 x1_2 in
  let y1_i := Z.max y1_1 y1_2 in
  let x2_i := Z.min x2_1 x2_2 in
  let y2_i := Z.min y2_1 y2_2 in
  if (x2_i <=? x1_i) || (y2_i <=? y1_i) then 0%Q
  else
    let intersection := (x2_i - x1_i) * (y2_i - y1_i) in
    let area1 := (x2_1 - x1_1) * (y2_1 - y1_1) in
    let area2 := (x2_2 - x1_2) * (y2_2 - y1_2) in
    let union := area1 + area2 - intersection in
    if 0 <? union then (inject_Z intersection / inject_Z union)%Q else 0%Q.


(* ------------------------------------------------------------------ *)
(** ** [FusionEngine._merge_keypoints] *)

Definition merge_keypoints (cfg : FusionConfig) (det1 det2 : option Detection)
    : list Keypoint :=
  match det1, det2 with
  | None, Some d2 => keypoints d2
  | None, None => []
  | Some d1, None => keypoints d1
  | Some d1, Some d2 =>
      let preferred :=
        match prefer_pose_from cfg with
        | Some p =>
            if bool_decide (backend_source d1 = Some p) && negb (null (keypoints d1))
            then Some (keypoints d1)
            else if bool_decide (backend_source d2 = Some p) && negb (null (keypoints d2))
            then Some (keypoints d2)
            else None
        | None => None
        end in
      match preferred with
      | Some k => k
      | None =>
          if (length (keypoints d2) <=? length (keypoints d1))%nat
          then keypoints d1 else keypoints d2
      end
  end.

(* ------------------------------------------------------------------ *)
(** ** [FusionEngine._aggregate_confidence] *)

Definition aggregate_confidence (cfg : FusionConfig) (conf1 conf2 : Q) : Q :=
  if String.eqb (confidence_aggregation cfg) "max" then py_max conf1 conf2
  else if String.eqb (confidence_aggregation cfg) "min" then py_min conf1 conf2
  else if String.eqb (confidence_aggregation cfg) "mean" then ((conf1 + conf2) / 2)%Q
  else py_max conf1 conf2.

(* ------------------------------------------------------------------ *)
(** ** Tagging: [det.backend_source = result.backend_type] for every
    detection of a result, in place. *)

Fixpoint tag_all (h : heap) (b : BackendType) (ls : list loc) : heap :=
  match ls with
  | [] => h
  | l :: ls' => tag_all (write h l (set_backend_source (read h l) b)) b ls'
  end.

(** The collection loop of [_consensus_fusion]: tags every detection and
    pairs it with its backend id. *)
Fixpoint collect_with_ids (h : heap) (rs : list (string * DetectionResult))
    : heap * list (loc * string) :=
  match rs with
  | [] => (h, [])
  | (bid, r) :: rs' =>
      let h1 := tag_all h (backend_type r) (detections r) in
      let '(h2, rest) := collect_with_ids h1 rs' in
      (h2, map (fun l => (l, bid)) (detections r) ++ rest)
  end.

(** The collection loop of [_parallel_merge]. *)
Fixpoint collect (h : heap) (rs : list DetectionResult) : heap * list loc :=
  match rs with
  | [] => (h, [])
  | r :: rs' =>
      let h1 := tag_all h (backend_type r) (detections r) in
      let '(h2, rest) := collect h1 rs' in
      (h2, detections r ++ rest)
  end.

(* ------------------------------------------------------------------ *)
(** ** [FusionEngine._consensus_fusion] *)

(** The inner [for j, (det2, backend2) in enumerate(all_detections)] loop:
    returns [used], [matching_count] and [matching_dets]. *)
Fixpoint consensus_group (cfg : FusionConfig) (h : heap) (i : nat)
    (det1 : Detection) (backend1 : string)
    (js : list (nat * (loc * string))) (used : gset nat)
    (matching_count : Z) (matching_dets : list loc)
    : gset nat * Z * list loc :=
  match js with
  | [] => (used, matching_count, matching_dets)
  | (j, (l2, backend2)) :: js' =>
      if (j <=? i)%nat || bool_decide (j ∈ used) || bool_decide (backend1 = backend2)
      then consensus_group cfg h i det1 backend1 js' used matching_count matching_dets
      else
        let det2 := read h l2 in
        if (class_id det1 =? class_id det2)
           && Qle_bool (iou_threshold cfg) (calculate_iou (bbox det1) (bbox det2))
        then consensus_group cfg h i det1 backend1 js' ({[j]} ∪ used)
               (matching_count + 1) (matching_dets ++ [l2])
        else consensus_group cfg h i det1 backend1 js' used matching_count matching_dets
  end.

(** [sum(d.confidence for d in ds)] *)
Definition sum_conf (h : heap) (ds : list loc) : Q :=
  fold_left (fun acc l => (acc + confidence (read h l))%Q) ds 0%Q.

(** The outer [for i, (det1, backend1) in enumerate(all_detections)] loop. *)
Fixpoint consensus_loop (cfg : FusionConfig) (h : heap)
    (all : list (nat * (loc * string))) (its : list (nat * (loc * string)))
    (used : gset nat) (acc : list loc) : heap * list loc :=
  match its with
  | [] => (h, acc)
  | (i, (l1, backend1)) :: its' =>
      if bool_decide (i ∈ used) then consensus_loop cfg h all its' used acc
      else
        let det1 := read h l1 in
        let '(used1, matching_count, matching_dets) :=
          consensus_group cfg h i det1 backend1 all used 1 [l1] in
        if min_backends_agree cfg <=? matching_count then
          let avg_conf :=
            (sum_conf h matching_dets / inject_Z (Z.of_nat (length matching_dets)))%Q in
          let second := match matching_dets with _ :: l :: _ => Some (read h l) | _ => None end in
          let first := match matching_dets with l :: _ => Some (read h l) | [] => None end in
          let merged := mkDetection (class_id det1) (class_name det1) (class_name_es det1)
                          avg_conf (bbox det1) (merge_keypoints cfg first second)
                          (tracker_id det1) (Some YOLO) in
          let '(h', lm) := alloc h merged in
          consensus_loop cfg h' all its' ({[i]} ∪ used1) (acc ++ [lm])
        else consensus_loop cfg h all its' used1 acc
  end.

Definition consensus_fusion (cfg : FusionConfig) (h : heap)
    (results : list (string * DetectionResult)) : heap * list loc :=
  if (length results <? 2)%nat then
    match results with
    | (_, r) :: _ => (h, detections r)
    | [] => (h, [])
    end
  else
    let '(h1, all_detections) := collect_with_ids h results in
    let all := enumerate all_detections in
    consensus_loop cfg h1 all all ∅ [].


(* ------------------------------------------------------------------ *)
(** ** [FusionEngine._match_detections] *)

(** The inner [for idx, det2 in enumerate(detections2)] loop: the state is
    [(best_match, best_iou, best_idx)]. *)
Fixpoint best_match_loop (cfg : FusionConfig) (h : heap) (det1 : Detection)
    (its : list (nat * loc)) (used2 : gset nat)
    (best_match : option loc) (best_iou : Q) (best_idx : option nat)
    : option loc * Q * option nat :=
  match its with
  | [] => (best_match, best_iou, best_idx)
  | (idx, l2) :: its' =>
      let det2 := read h l2 in
      if bool_decide (idx ∈ used2) || negb (class_id det1 =? class_id det2)
      then best_match_loop cfg h det1 its' used2 best_match best_iou best_idx
      else
        let iou := calculate_iou (bbox det1) (bbox det2) in
        if qlt best_iou iou
        then best_match_loop cfg h det1 its' used2 (Some l2) iou (Some idx)
        else best_match_loop cfg h det1 its' used2 best_match best_iou best_idx
  end.

Fixpoint match_outer (cfg : FusionConfig) (h : heap) (ds1 : list loc)
    (its2 : list (nat * loc)) (used2 : gset nat)
    : gset nat * list (option loc * option loc) :=
  match ds1 with
  | [] => (used2, [])
  | l1 :: ds1' =>
      let '(bm, _, bi) :=
        best_match_loop cfg h (read h l1) its2 used2 None (iou_threshold cfg) None in
      match bm with
      | Some l2 =>
          let used2' := match bi with Some i => {[i]} ∪ used2 | None => used2 end in
          let '(u, rest) := match_outer cfg h ds1' its2 used2' in
          (u, (Some l1, Some l2) :: rest)
      | None =>
          let '(u, rest) := match_outer cfg h ds1' its2 used2 in
          (u, (Some l1, None) :: rest)
      end
  end.

Definition match_detections (cfg : FusionConfig) (h : heap) (ds1 ds2 : list loc)
    : list (option loc * option loc) :=
  let its2 := enumerate ds2 in
  let '(used2, matched) := match_outer cfg h ds1 its2 ∅ in
  matched ++ map (fun '(_, l2) => (None, Some l2))
                 (filter (fun '(idx, _) => idx ∉ used2) its2).

(* ------------------------------------------------------------------ *)
(** ** [FusionEngine._cascade_fusion] *)

(** The selection loop: the last YOLO result and the last pose result. *)
Fixpoint find_roles (rs : list DetectionResult)
    (yolo_result pose_result : option DetectionResult)
    : option DetectionResult * option DetectionResult :=
  match rs with
  | [] => (yolo_result, pose_result)
  | r :: rs' =>
      match backend_type r with
      | YOLO => find_roles rs' (Some r) pose_result
      | DEEPLABCUT | SLEAP => find_roles rs' yolo_result (Some r)
      end
  end.

(** [yolo_det.tracker_id or pose_det.tracker_id]: [0] is falsy in Python. *)
Definition py_or_tracker (a b : option Z) : option Z :=
  match a with
  | Some z => if z =? 0 then b else a
  | None => b
  end.

Fixpoint cascade_merge (cfg : FusionConfig) (h : heap)
    (matches : list (option loc * option loc)) (fused : list loc) : heap * list loc :=
  match matches with
  | [] => (h, fused)
  | (None, None) :: ms => cascade_merge cfg h ms fused
  | (None, Some lp) :: ms => cascade_merge cfg h ms (fused ++ [lp])
  | (Some ly, None) :: ms => cascade_merge cfg h ms (fused ++ [ly])
  | (Some ly, Some lp) :: ms =>
      let yolo_det := read h ly in
      let pose_det := read h lp in
      let merged := mkDetection (class_id yolo_det) (class_name yolo_det)
          (class_name_es yolo_det)
          (aggregate_confidence cfg (confidence yolo_det) (confidence pose_det))
          (bbox yolo_det)
          (if null (keypoints pose_det) then keypoints yolo_det else keypoints pose_det)
          (py_or_tracker (tracker_id yolo_det) (tracker_id pose_det))
          (Some YOLO) in
      let '(h', lm) := alloc h merged in
      cascade_merge cfg h' ms (fused ++ [lm])
  end.

Definition cascade_fusion (cfg : FusionConfig) (h : heap)
    (results : list (string * DetectionResult)) : heap * list loc :=
  let rs := map snd results in
  match find_roles rs None None with
  | (None, _) =>
      match rs with r :: _ => (h, detections r) | [] => (h, []) end
  | (Some yolo_result, None) => (h, detections yolo_result)
  | (Some yolo_result, Some pose_result) =>
      cascade_merge cfg h
        (match_detections cfg h (detections yolo_result) (detections pose_result)) []
  end.

(* ------------------------------------------------------------------ *)
(** ** [FusionEngine._parallel_merge] *)

(** The inner loop collecting [group]. *)
Fixpoint merge_group (cfg : FusionConfig) (h : heap) (i : nat) (det1 : Detection)
    (js : list (nat * loc)) (used : gset nat) (group : list loc)
    : gset nat * list loc :=
  match js with
  | [] => (used, group)
  | (j, l2) :: js' =>
      if (j <=? i)%nat || bool_decide (j ∈ used)
      then merge_group cfg h i det1 js' used group
      else
        let det2 := read h l2 in
        if (class_id det1 =? class_id det2)
           && Qle_bool (iou_threshold cfg) (calculate_iou (bbox det1) (bbox det2))
        then merge_group cfg h i det1 js' ({[j]} ∪ used) (group ++ [l2])
        else merge_group cfg h i det1 js' used group
  end.

(** [max(group, key=lambda d: d.confidence)]: the first maximal element. *)
Fixpoint best_of (h : heap) (best : loc) (ls : list loc) : loc :=
  match ls with
  | [] => best
  | l :: ls' =>
      if qlt (confidence (read h best)) (confidence (read h l))
      then best_of h l ls' else best_of h best ls'
  end.

(** [max(d.confidence for d in group)] *)
Definition max_conf (h : heap) (l : loc) (ls : list loc) : Q :=
  fold_left (fun m l' => py_max m (confidence (read h l'))) ls (confidence (read h l)).

Fixpoint merge_loop (cfg : FusionConfig) (h : heap) (all : list (nat * loc))
    (its : list (nat * loc)) (used : gset nat) (merged : list loc) : heap * list loc :=
  match its with
  | [] => (h, merged)
  | (i, l1) :: its' =>
      if bool_decide (i ∈ used) then merge_loop cfg h all its' used merged
      else
        let det1 := read h l1 in
        let '(used1, group) := merge_group cfg h i det1 all used [l1] in
        match group with
        | [_] => merge_loop cfg h all its' ({[i]} ∪ used1) (merged ++ [l1])
        | g0 :: grest =>
            let best := best_of h g0 grest in
            let kps := merge_keypoints cfg (Some (read h g0))
                         (match grest with g1 :: _ => Some (read h g1) | [] => None end) in
            (* [best.keypoints = ...] then [best.confidence = max(...)] *)
            let h1 := write h best (set_keypoints (read h best) kps) in
            let h2 := write h1 best (set_confidence (read h1 best) (max_conf h1 g0 grest)) in
            merge_loop cfg h2 all its' ({[i]} ∪ used1) (merged ++ [best])
        | [] => merge_loop cfg h all its' ({[i]} ∪ used1) merged
        end
  end.

Definition parallel_merge (cfg : FusionConfig) (h : heap)
    (results : list (string * DetectionResult)) : heap * list loc :=
  let '(h1, all_detections) := collect h (map snd results) in
  if null all_detections then (h1, [])
  else
    let all := enumerate all_detections in
    merge_loop cfg h1 all all ∅ [].

(* ------------------------------------------------------------------ *)
(** ** [FusionEngine._weighted_fusion] *)

Definition default_weights : list (BackendType * Q) :=
  [(YOLO, 1%Q); (DEEPLABCUT, (6 # 5)%Q); (SLEAP, (11 # 10)%Q)].

(** [weights.get(t, 1.0)] *)
Definition weight_of (weights : list (BackendType * Q)) (t : BackendType) : Q :=
  match list_find (fun '(k, _) => k = t) weights with
  | Some (_, (_, w)) => w
  | None => 1%Q
  end.

(** [det.confidence = min(1.0, det.confidence * weight)] and
    [det.backend_source = result.backend_type], in place. *)
Fixpoint weigh_all (h : heap) (w : Q) (b : BackendType) (ls : list loc) : heap :=
  match ls with
  | [] => h
  | l :: ls' =>
      let d := read h l in
      let h1 := write h l (set_confidence d (py_min 1%Q (confidence d * w)%Q)) in
      let h2 := write h1 l (set_backend_source (read h1 l) b) in
      weigh_all h2 w b ls'
  end.

Fixpoint weigh_results (h : heap) (weights : list (BackendType * Q))
    (rs : list DetectionResult) : heap * list loc :=
  match rs with
  | [] => (h, [])
  | r :: rs' =>
      let h1 := weigh_all h (weight_of weights (backend_type r)) (backend_type r) (detections r) in
      let '(h2, rest) := weigh_results h1 weights rs' in
      (h2, detections r ++ rest)
  end.

Definition weighted_fusion (cfg : FusionConfig) (h : heap)
    (results : list (string * DetectionResult)) : heap * list loc :=
  let weights := if null (backend_weights cfg) then default_weights else backend_weights cfg in
  let '(h1, all_detections) := weigh_results h weights (map snd results) in
  parallel_merge cfg h1 [("weighted", mkDetectionResult all_detections 0 0 0 YOLO)].

(* ------------------------------------------------------------------ *)
(** ** [FusionEngine._first_wins_fusion] *)

Definition first_wins_fusion (h : heap) (results : list (string * DetectionResult))
    : heap * list loc :=
  match results with
  | (_, r) :: _ => (tag_all h (backend_type r) (detections r), detections r)
  | [] => (h, [])
  end.

(* ------------------------------------------------------------------ *)
(** ** [FusionEngine.process_parallel]

    Each backend's [detect_async] task either returns a result or raises;
    [except Exception] catches the latter. [elapsed] is the measured
    [(time.perf_counter() - start_time) * 1000]; [w] and [hgt] are
    [frame.shape[:2]]. *)

Inductive TaskOutcome :=
  | Returned (r : DetectionResult)
  | Raised.

Fixpoint await_all (tasks : list (string * TaskOutcome)) : list (string * DetectionResult) :=
  match tasks with
  | [] => []
  | (bid, Returned r) :: ts => (bid, r) :: await_all ts
  | (_, Raised) :: ts => await_all ts
  end.

Definition apply_strategy (cfg : FusionConfig) (h : heap)
    (results : list (string * DetectionResult)) : heap * list loc :=
  match strategy cfg with
  | CONSENSUS => consensus_fusion cfg h results
  | CASCADE => cascade_fusion cfg h results
  | PARALLEL_MERGE => parallel_merge cfg h results
  | WEIGHTED => weighted_fusion cfg h results
  | FIRST_WINS => first_wins_fusion h results
  end.

Definition process_parallel (cfg : FusionConfig) (h : heap) (w hgt : Z)
    (backends : list (string * TaskOutcome)) (elapsed : Q)
    : heap * FusedDetectionResult :=
  match backends with
  | [] => (h, mkFused [] 0 w hgt [] (strategy_value (strategy cfg)) [])
  | _ =>
      let results := await_all backends in
      let '(h', fused_detections) := apply_strategy cfg h results in
      (h', mkFused fused_detections elapsed w hgt
             (map (fun '(_, r) => backend_type r) results)
             (strategy_value (strategy cfg)) (map snd results))
  end.

End Fusion.

(* ------------------------------------------------------------------ *)
(** ** Zones and zone events ([zones/geometry.py]) *)

(** [class ZoneType(str, Enum)] *)
Inductive ZoneType := WARNING | DANGER.

#[global] Instance ZoneType_eq_dec : EqDecision ZoneType.
Proof. solve_decision. Defined.

(** [@dataclass class Zone]; the polygon is in normalized coordinates. *)
Record Zone := mkZone {
  z_id : string;
  z_name : string;
  zone_type : ZoneType;
  polygon : list (Q * Q);
  color : string;
  enabled : bool;
}.

(** [@dataclass class ZoneEvent] *)
Record ZoneEvent := mkZoneEvent {
  ev_tracker_id : Z;
  ev_class_name : string;
  ev_zone_id : string;
  ev_zone_name : string;
  ev_zone_type : ZoneType;
  event_type : string;
  ev_timestamp : Q;
}.

(** The fields of [TrackedObject.to_dict()] that [check_objects] reads. *)
Record TrackedObject := mkTracked {
  obj_tracker_id : Z;
  obj_class_name_es : string;
  bottom_center : Z * Z;
}.

Module Zones.

(** The geometry library: [prep(Polygon(points))] either yields a
    prepared polygon or raises, and [prepared.contains(Point(x, y))] is a
    boolean test. Both are parameters, so every statement below holds for
    any polygon library. *)
Section ZoneManager.
Variable Prepared : Type.
Variable make_prepared : list (Q * Q) -> option Prepared.
Variable contains : Prepared -> Q * Q -> bool.

(** [class ZoneManager]: [zones], [_prepared_polygons], [_object_zones]. *)
Record ZoneManager := mkZoneManager {
  zones : gmap string Zone;
  prepared_polygons : gmap string Prepared;
  object_zones : gmap Z (gset string);
}.

(** A call either returns or raises (the state it leaves is kept). *)
Inductive Outcome := Returned | Raised.

(** [ZoneManager.add_zone]: the zone is stored before the polygon is built. *)
Definition add_zone (s : ZoneManager) (zone : Zone) : ZoneManager * Outcome :=
  let s1 := mkZoneManager (<[z_id zone := zone]> (zones s)) (prepared_polygons s) (object_zones s) in
  match make_prepared (polygon zone) with
  | Some p => (mkZoneManager (zones s1) (<[z_id zone := p]> (prepared_polygons s1)) (object_zones s1), Returned)
  | None => (s1, Raised)
  end.

(** [ZoneManager.remove_zone]: [del self._prepared_polygons[zone_id]]
    raises [KeyError] when the prepared polygon is missing. *)
Definition remove_zone (s : ZoneManager) (zid : string) : ZoneManager * option bool :=
  match zones s !! zid with
  | Some _ =>
      let s1 := mkZoneManager (delete zid (zones s)) (prepared_polygons s) (object_zones s) in
      match prepared_polygons s !! zid with
      | Some _ => (mkZoneManager (zones s1) (delete zid (prepared_polygons s1)) (object_zones s1), Some true)
      | None => (s1, None)
      end
  | None => (s, Some false)
  end.

(** [ZoneManager.clear_zones] *)
Definition clear_zones (s : ZoneManager) : ZoneManager :=
  mkZoneManager ∅ ∅ ∅.

(** The loop of [check_point] over [self._prepared_polygons.items()];
    [self.zones[zone_id]] raises [KeyError] ([None]) on a missing id. *)
Fixpoint scan_zones (s : ZoneManager) (pt : Q * Q) (items : list (string * Prepared))
    : option (list Zone) :=
  match items with
  | [] => Some []
  | (zid, prepared) :: items' =>
      zone ← zones s !! zid;
      rest ← scan_zones s pt items';
      Some (if enabled zone && contains prepared pt then zone :: rest else rest)
  end.

(** [ZoneManager.check_point]: pixel coordinates are normalized by the
    frame size ([ZeroDivisionError] on a zero size). The order of the
    returned zones follows the map, not Python's insertion order; the
    caller only builds a set from it. *)
Definition check_point (s : ZoneManager) (x y frame_width frame_height : Z)
    : option (list Zone) :=
  if (frame_width =? 0) || (frame_height =? 0) then None
  else
    let norm_x := (inject_Z x / inject_Z frame_width)%Q in
    let norm_y := (inject_Z y / inject_Z frame_height)%Q in
    scan_zones s (norm_x, norm_y) (map_to_list (prepared_polygons s)).

Definition make_event (obj : TrackedObject) (zone_id : string) (zone : Zone)
    (kind : string) (timestamp : Q) : ZoneEvent :=
  mkZoneEvent (obj_tracker_id obj) (obj_class_name_es obj) zone_id (z_name zone)
    (zone_type zone) kind timestamp.

(** The body of the [for obj in objects] loop of [check_objects]: the
    events of one object and its [current_zones]. *)
Definition object_events (s : ZoneManager) (obj : TrackedObject)
    (frame_width frame_height : Z) (timestamp : Q)
    : option (list ZoneEvent * gset string) :=
  containing_zones ← check_point s (fst (bottom_center obj)) (snd (bottom_center obj))
                       frame_width frame_height;
  let current_zones : gset string := list_to_set (map z_id containing_zones) in
  let previous_zones := default ∅ (object_zones s !! obj_tracker_id obj) in
  entered ← mapM (fun zid => zone ← zones s !! zid;
                    Some (make_event obj zid zone "enter" timestamp))
              (elements (current_zones ∖ previous_zones));
  still_inside ← mapM (fun zid => zone ← zones s !! zid;
                         Some (make_event obj zid zone "inside" timestamp))
                   (elements (current_zones ∩ previous_zones));
  (* [if zone_id in self.zones] *)
  let exited := omap (fun zid => zone ← zones s !! zid;
                        Some (make_event obj zid zone "exit" timestamp))
                  (elements (previous_zones ∖ current_zones)) in
  Some (entered ++ still_inside ++ exited, current_zones).

Fixpoint check_objects_loop (s : ZoneManager) (objects : list TrackedObject)
    (frame_width frame_height : Z) (timestamp : Q)
    (events : list ZoneEvent) (current_object_zones : gmap Z (gset string))
    : option (list ZoneEvent * gmap Z (gset string)) :=
  match objects with
  | [] => Some (events, current_object_zones)
  | obj :: objects' =>
      '(evs, current_zones) ← object_events s obj frame_width frame_height timestamp;
      check_objects_loop s objects' frame_width frame_height timestamp (events ++ evs)
        (<[obj_tracker_id obj := current_zones]> current_object_zones)
  end.

(** [ZoneManager.check_objects]: [self._object_zones] is replaced only
    when the loop completes. *)
Definition check_objects (s : ZoneManager) (objects : list TrackedObject)
    (frame_width frame_height : Z) (timestamp : Q)
    : option (list ZoneEvent * ZoneManager) :=
  '(events, current_object_zones) ←
     check_objects_loop s objects frame_width frame_height timestamp [] ∅;
  Some (events, mkZoneManager (zones s) (prepared_polygons s) current_object_zones).

End ZoneManager.

(** [ZoneManager.get_danger_events] and [get_warning_events]:
    [e.event_type in ("enter", "inside")]. *)
Definition entry_kind (e : ZoneEvent) : bool :=
  String.eqb (event_type e) "enter" || String.eqb (event_type e) "inside".

Definition get_danger_events (events : list ZoneEvent) : list ZoneEvent :=
  filter (fun e => bool_decide (ev_zone_type e = DANGER) && entry_kind e) events.

Definition get_warning_events (events : list ZoneEvent) : list ZoneEvent :=
  filter (fun e => bool_decide (ev_zone_type e = WARNING) && entry_kind e) events.

(* ------------------------------------------------------------------ *)
(** ** [Zone.to_dict] and [Zone.from_dict]

    The JSON-like values the two methods exchange; a dict is an
    association list in insertion order, [data[k]] and [data.get(k, d)]
    read the first entry of key [k]. *)

#[warnings="-register-all"]
Inductive PyVal :=
  | PStr (s : string)
  | PBool (b : bool)
  | PFloat (q : Q)
  | PList (xs : list PyVal)
  | PTuple (xs : list PyVal).

Definition PyDict : Type := list (string * PyVal).

Fixpoint py_lookup (d : PyDict) (k : string) : option PyVal :=
  match d with
  | [] => None
  | (k', v) :: d' => if String.eqb k k' then Some v else py_lookup d' k
  end.

(** [ZoneType.value] and [ZoneType(value)] ([ValueError] on another value). *)
Definition zone_type_value (t : ZoneType) : string :=
  match t with WARNING => "warning" | DANGER => "danger" end.

Definition zone_type_of_value (s : string) : option ZoneType :=
  if String.eqb s "warning" then Some WARNING
  else if String.eqb s "danger" then Some DANGER
  else None.

(** [Zone.to_dict]: the polygon is the list of [(x, y)] tuples. *)
Definition zone_to_dict (z : Zone) : PyDict :=
  [("id", PStr (z_id z));
   ("name", PStr (z_name z));
   ("type", PStr (zone_type_value (zone_type z)));
   ("polygon", PList (map (fun '(x, y) => PTuple [PFloat x; PFloat y]) (polygon z)));
   ("color", PStr (color z));
   ("enabled", PBool (enabled z))].

(** The typed fields of [Zone]: a value the record cannot hold (a
    non-string name, a point that is not a pair of floats) makes the
    decoding fail, as does a missing key ([KeyError]). [tuple(p)] accepts
    a list or a tuple. *)
Definition as_str (v : PyVal) : option string :=
  match v with PStr s => Some s | _ => None end.

Definition as_bool (v : PyVal) : option bool :=
  match v with PBool b => Some b | _ => None end.

Definition as_point (v : PyVal) : option (Q * Q) :=
  match v with
  | PList [PFloat x; PFloat y] | PTuple [PFloat x; PFloat y] => Some (x, y)
  | _ => None
  end.

Definition as_points (v : PyVal) : option (list (Q * Q)) :=
  match v with
  | PList ps | PTuple ps => mapM as_point ps
  | _ => None
  end.

(** [Zone.from_dict] *)
Definition zone_from_dict (data : PyDict) : option Zone :=
  zid ← py_lookup data "id" ≫= as_str;
  name ← py_lookup data "name" ≫= as_str;
  t ← (py_lookup data "type" ≫= as_str) ≫= zone_type_of_value;
  pts ← py_lookup data "polygon" ≫= as_points;
  col ← as_str (default (PStr "#f59e0b") (py_lookup data "color"));
  en ← as_bool (default (PBool true) (py_lookup data "enabled"));
  Some (mkZone zid name t pts col en).

End Zones.

Module Alerts.

(** [class AlertPriority(str, Enum)] *)
Inductive AlertPriority := LOW | NORMAL | HIGH | URGENT.

(** [@dataclass class Alert]. The human-readable [title] and [message]
    texts are not modelled. *)
Record Alert := mkAlert {
  alert_id : string;
  priority : AlertPriority;
  a_zone_type : ZoneType;
  a_tracker_id : Z;
  a_class_name : string;
  a_timestamp : Q;
  sent : bool;
}.

(** [@dataclass class AlertConfig] (the delivery endpoint is not modelled). *)
Record AlertConfig := mkAlertConfig {
  al_enabled : bool;
  min_confidence : Q;
  min_frames_in_zone : Z;
  cooldown_seconds : Q;
  alert_classes : list string;
}.

(** The counters of [AlertNotifier]: [_frame_counts], [_last_alerts],
    [_alert_history]. *)
Record Notifier := mkNotifier {
  frame_counts : gmap string Z;
  last_alerts : gmap string Q;
  alert_history : list Alert;
}.

Definition fresh_notifier : Notifier := mkNotifier ∅ ∅ [].

(** [str.lower()] on ASCII letters. *)
Definition ascii_lower (c : Ascii.ascii) : Ascii.ascii :=
  let n := Ascii.nat_of_ascii c in
  if (65 <=? n)%nat && (n <=? 90)%nat then Ascii.ascii_of_nat (n + 32) else c.

Fixpoint lower (s : string) : string :=
  match s with
  | EmptyString => EmptyString
  | String c s' => String (ascii_lower c) (lower s')
  end.

(** [f"{tracker_id}:{zone_id}"] *)
Definition get_key (tracker_id : Z) (zone_id : string) : string :=
  String.append (pretty tracker_id) (String.append ":" zone_id).

(** [f"{class_name}:{zone_id}"] *)
Definition get_cooldown_key (class_name : string) (zone_id : string) : string :=
  String.append class_name (String.append ":" zone_id).

(** [_is_in_cooldown]: [now] is the reading of [time.time()]. *)
Definition is_in_cooldown (cfg : AlertConfig) (n : Notifier) (now : Q)
    (class_name zone_id : string) : bool :=
  let last_time := default 0%Q (last_alerts n !! get_cooldown_key class_name zone_id) in
  qlt (now - last_time)%Q (cooldown_seconds cfg).

(** [int(x)] on a float: truncation toward zero. *)
Definition py_int (q : Q) : Z := Z.quot (Qnum q) (Zpos (Qden q)).

(** [_create_alert] *)
Definition create_alert (event : ZoneEvent) : Alert :=
  let priority := match ev_zone_type event with DANGER => URGENT | WARNING => HIGH end in
  let aid := String.append (pretty (ev_tracker_id event))
               (String.append "-" (String.append (ev_zone_id event)
                 (String.append "-" (pretty (py_int (ev_timestamp event)))))) in
  mkAlert aid priority (ev_zone_type event) (ev_tracker_id event)
    (ev_class_name event) (ev_timestamp event) false.

(** [event.class_name.lower() in [c.lower() for c in alert_classes]] *)
Definition class_enabled (cfg : AlertConfig) (class_name : string) : bool :=
  existsb (fun c => String.eqb (lower class_name) (lower c)) (alert_classes cfg).

(** The [for event in events] loop of [process_zone_events]. *)
Fixpoint process_loop (cfg : AlertConfig) (now : Q) (n : Notifier)
    (events : list ZoneEvent) (alerts : list Alert) : Notifier * list Alert :=
  match events with
  | [] => (n, alerts)
  | event :: events' =>
      if negb (String.eqb (event_type event) "enter" || String.eqb (event_type event) "inside")
      then process_loop cfg now n events' alerts
      else if negb (class_enabled cfg (ev_class_name event))
      then process_loop cfg now n events' alerts
      else
        let key := get_key (ev_tracker_id event) (ev_zone_id event) in
        let frame_count :=
          if String.eqb (event_type event) "enter" then 1
          else default 0 (frame_counts n !! key) + 1 in
        let n1 := mkNotifier (<[key := frame_count]> (frame_counts n))
                    (last_alerts n) (alert_history n) in
        if frame_count <? min_frames_in_zone cfg
        then process_loop cfg now n1 events' alerts
        else if is_in_cooldown cfg n1 now (ev_class_name event) (ev_zone_id event)
        then process_loop cfg now n1 events' alerts
        else if (frame_count =? min_frames_in_zone cfg)
                || ((min_frames_in_zone cfg <? frame_count)
                    && negb (is_in_cooldown cfg n1 now (ev_class_name event) (ev_zone_id event)))
        then
          let alert := create_alert event in
          let n2 := mkNotifier (frame_counts n1)
                      (<[get_cooldown_key (ev_class_name event) (ev_zone_id event) := now]>
                         (last_alerts n1))
                      (alert_history n1 ++ [alert]) in
          process_loop cfg now n2 events' (alerts ++ [alert])
        else process_loop cfg now n1 events' alerts
  end.

(** [AlertNotifier.process_zone_events], at clock reading [now]: every
    [time.time()] reading within the call is taken as that one value. *)
Definition process_zone_events (cfg : AlertConfig) (n : Notifier)
    (events : list ZoneEvent) (now : Q) : Notifier * list Alert :=
  if negb (al_enabled cfg) then (n, [])
  else
    let '(n1, alerts) := process_loop cfg now n events [] in
    let active_keys : gset string :=
      list_to_set (map (fun e => get_key (ev_tracker_id e) (ev_zone_id e)) events) in
    (mkNotifier (filter (fun kv => kv.1 ∈ active_keys) (frame_counts n1))
       (last_alerts n1) (alert_history n1), alerts).

(** Successive calls, one per frame: each call is its clock reading and
    its batch of events; the result lists the alerts of every call. *)
Fixpoint run (cfg : AlertConfig) (n : Notifier) (calls : list (Q * list ZoneEvent))
    : Notifier * list (list Alert) :=
  match calls with
  | [] => (n, [])
  | (now, events) :: calls' =>
      let '(n1, alerts) := process_zone_events cfg n events now in
      let '(n2, rest) := run cfg n1 calls' in
      (n2, alerts :: rest)
  end.

(** [xs[start:]] on a Python list: a negative start counts from the end,
    and the start is clamped to [0 .. len(xs)]. *)
Definition py_slice_from {A} (xs : list A) (start : Z) : list A :=
  let n := Z.of_nat (length xs) in
  let s := if start <? 0 then Z.max 0 (start + n) else Z.min start n in
  drop (Z.to_nat s) xs.

(** [AlertNotifier.get_recent_alerts]: [self._alert_history[-limit:]]. *)
Definition get_recent_alerts (n : Notifier) (limit : Z) : list Alert :=
  py_slice_from (alert_history n) (- limit).

End Alerts.

Module Pipeline.
Import Fusion.

(** A preset's backend entry, the dict
    [{"type": ..., "model": ..., "targets": [...]}]; it is also what
    [add_backend] stores as the instance's [config]. *)
Record BackendSpec := mkBackendSpec {
  spec_type : BackendType;
  spec_model : string;
  spec_targets : option (list string);
}.

(** [@dataclass class BackendInstance]; the detector object itself is a
    fresh object per instance and is not modelled. *)
Record BackendInstance := mkBackendInstance {
  backend_id : string;
  b_type : BackendType;
  b_enabled : bool;
  model_name : string;
  config : option BackendSpec;
}.

(** [@dataclass class PipelinePreset] (display fields omitted). *)
Record PipelinePreset := mkPreset {
  preset_id : string;
  preset_backends : list BackendSpec;
  fusion : FusionConfig;
}.

(** [FusionConfig()] with keyword overrides. *)
Definition default_fusion : FusionConfig :=
  mkFusionConfig PARALLEL_MERGE 1 (1 # 2) None "max" [].

Definition fusion_with (st : FusionStrategy) (mba : Z) (pref : option BackendType)
    (agg : string) : FusionConfig :=
  mkFusionConfig st mba (1 # 2) pref agg [].

(** [d.get(k)] on a dict with distinct keys. *)
Fixpoint dict_get {V} (d : list (string * V)) (k : string) : option V :=
  match d with
  | [] => None
  | (k', v) :: d' => if String.eqb k k' then Some v else dict_get d' k
  end.

(** [PRESETS] *)
Definition PRESETS : list (string * PipelinePreset) :=
  [("home_security", mkPreset "home_security"
      [mkBackendSpec YOLO "yolo11n.pt" (Some ["person"; "dog"; "cat"])]
      (fusion_with FIRST_WINS 1 None "max"));
   ("pet_monitor", mkPreset "pet_monitor"
      [mkBackendSpec YOLO "yolo11n.pt" (Some ["dog"; "cat"]);
       mkBackendSpec DEEPLABCUT "superanimal_quadruped" None]
      (fusion_with CASCADE 1 (Some DEEPLABCUT) "max"));
   ("high_precision", mkPreset "high_precision"
      [mkBackendSpec YOLO "yolo11m.pt" None;
       mkBackendSpec DEEPLABCUT "superanimal_quadruped" None]
      (fusion_with CONSENSUS 2 None "mean"));
   ("lab_research", mkPreset "lab_research"
      [mkBackendSpec SLEAP "custom_trained" None]
      (fusion_with FIRST_WINS 1 None "max"));
   ("wildlife", mkPreset "wildlife"
      [mkBackendSpec YOLO "yolo11n.pt" (Some ["bird"; "bear"; "elephant"; "zebra"; "giraffe"]);
       mkBackendSpec DEEPLABCUT "superanimal_quadruped" None]
      (fusion_with PARALLEL_MERGE 1 (Some DEEPLABCUT) "max"));
   ("industrial", mkPreset "industrial"
      [mkBackendSpec YOLO "yolo11m.pt" None]
      (fusion_with FIRST_WINS 1 None "max"));
   ("custom", mkPreset "custom" [] (fusion_with PARALLEL_MERGE 1 None "max"))].

(** [PRESETS.get(preset_id)] *)
Definition get_preset (preset_id : string) : option PipelinePreset :=
  dict_get PRESETS preset_id.

(** [class PipelineManager]: [_backends] (a dict in insertion order),
    the fusion engine's [config], [_active_preset], [_backend_counter]. *)
Record PipelineState := mkPipelineState {
  backends : list (string * BackendInstance);
  fusion_config : FusionConfig;
  active_preset : option string;
  backend_counter : Z;
}.

(** [d[k] = v] on a dict: replaced in place or appended. *)
Fixpoint dict_set {V} (d : list (string * V)) (k : string) (v : V) : list (string * V) :=
  match d with
  | [] => [(k, v)]
  | (k', v') :: d' => if String.eqb k k' then (k, v) :: d' else (k', v') :: dict_set d' k v
  end.

(** [f"{backend_type.value}_{self._backend_counter}"] *)
Definition make_backend_id (t : BackendType) (counter : Z) : string :=
  String.append (backend_value t) (String.append "_" (pretty counter)).

Section Manager.
(** [_create_detector]: whether the detector class of a type can be
    imported and built in the running environment. *)
Variable detector_available : BackendType -> bool.

(** [PipelineManager.add_backend]: [None] when it raises [ValueError].
    A failed [load_model] is caught and does not change the state. *)
Definition add_backend (s : PipelineState) (t : BackendType) (model : string)
    (cfg : option BackendSpec) : PipelineState * option string :=
  let counter := backend_counter s + 1 in
  let bid := make_backend_id t counter in
  if detector_available t then
    let inst := mkBackendInstance bid t true model cfg in
    (mkPipelineState (dict_set (backends s) bid inst) (fusion_config s) (active_preset s) counter,
     Some bid)
  else
    (mkPipelineState (backends s) (fusion_config s) (active_preset s) counter, None).

(** [clear_all_backends]: every instance is removed (and cleaned up). *)
Definition clear_all_backends (s : PipelineState) : PipelineState :=
  mkPipelineState [] (fusion_config s) (active_preset s) (backend_counter s).

(** The [for backend_config in preset.backends] loop; [true] when an
    [add_backend] call raised (the exception leaves the loop). *)
Fixpoint add_all (s : PipelineState) (specs : list BackendSpec) : PipelineState * bool :=
  match specs with
  | [] => (s, false)
  | sp :: specs' =>
      match add_backend s (spec_type sp) (spec_model sp) (Some sp) with
      | (s1, Some _) => add_all s1 specs'
      | (s1, None) => (s1, true)
      end
  end.

(** What [apply_preset] does: returns a bool or raises. *)
Inductive ApplyResult := ReturnedBool (b : bool) | RaisedError.

(** [PipelineManager.apply_preset] *)
Definition apply_preset (s : PipelineState) (preset_id : string)
    : PipelineState * ApplyResult :=
  match get_preset preset_id with
  | None => (s, ReturnedBool false)
  | Some preset =>
      let s1 := clear_all_backends s in
      let s2 := mkPipelineState (backends s1) (fusion preset) (active_preset s1)
                  (backend_counter s1) in
      match add_all s2 (preset_backends preset) with
      | (s3, true) => (s3, RaisedError)
      | (s3, false) =>
          (mkPipelineState (backends s3) (fusion_config s3) (Some preset_id)
             (backend_counter s3), ReturnedBool true)
      end
  end.

End Manager.



Definition set_enabled (i : BackendInstance) (en : bool) : BackendInstance :=
  mkBackendInstance (backend_id i) (b_type i) en (model_name i) (config i).

(** [PipelineManager.enable_backend]: [self._backends[backend_id].enabled = enabled]. *)
Definition enable_backend (s : PipelineState) (bid : string) (en : bool) : PipelineState * bool :=
  match dict_get (backends s) bid with
  | Some i =>
      (mkPipelineState (dict_set (backends s) bid (set_enabled i en)) (fusion_config s)
         (active_preset s) (backend_counter s), true)
  | None => (s, false)
  end.

(** [PipelineManager.get_active_backends]: the enabled instances, in dict order. *)
Definition get_active_backends (s : PipelineState) : list (string * BackendInstance) :=
  filter (fun kv => b_enabled kv.2 = true) (backends s).

(** [PipelineManager.process_frame]: [detect] gives the outcome of each
    backend's [detect_async] task on the frame. *)
Definition process_frame (s : PipelineState) (h : heap) (w hgt : Z)
    (detect : string -> TaskOutcome) (elapsed : Q) : heap * FusedDetectionResult :=
  process_parallel (fusion_config s) h w hgt
    (map (fun kv => (kv.1, detect kv.1)) (get_active_backends s)) elapsed.

End Pipeline.

(* ------------------------------------------------------------------ *)
(** ** The zone and alert stage of the tracking stream
    ([api/websocket.py], the frame loop of the stream handler) *)

Module Stream.
Import Zones Alerts.

Section Stream.
Variable Prepared : Type.
Variable make_prepared : list (Q * Q) -> option Prepared.
Variable contains : Prepared -> Q * Q -> bool.

(** One frame: [check_objects] runs only when the tracker returned
    objects, then [process_zone_events] runs on the events. [ts] is the
    [time.time()] passed to [check_objects], [now] the clock reading
    inside the notifier; [None] when [check_objects] raises. *)
Definition zone_alert_step (cfg : AlertConfig) (zm : ZoneManager Prepared) (n : Notifier)
    (objects : list TrackedObject) (w hgt : Z) (ts now : Q)
    : option (ZoneManager Prepared * Notifier * list ZoneEvent * list Alert) :=
  '(zone_events, zm') ←
     (if null objects then Some ([], zm)
      else check_objects Prepared contains zm objects w hgt ts);
  let '(n', alerts) := process_zone_events cfg n zone_events now in
  Some (zm', n', zone_events, alerts).

End Stream.

End Stream.

(* ================================================================== *)
(** * Vocabulary of the statements

    Predicates and views the theorems below are stated with, and the
    concrete inputs their witnesses and counterexamples run on. *)

Module FusionSpec.
Import Fusion.

(** A box as the code expects it: [x1 < x2] and [y1 < y2]. *)
Definition valid_box (b : BBox) : Prop :=
  let '(x1, y1, x2, y2) := b in x1 < x2 /\ y1 < y2.

(** The unit pixel cell [(i, j)] lies inside box [b]. *)
Definition cell_in (b : BBox) (i j : Z) : Prop :=
  let '(x1, y1, x2, y2) := b in x1 <= i < x2 /\ y1 <= j < y2.

(** Two boxes share no area: no pixel cell lies in both. *)
Definition disjoint_boxes (a b : BBox) : Prop :=
  forall i j, ~ (cell_in a i j /\ cell_in b i j).

(** The fields that fusion is asked to preserve. *)
Definition same_core (d d' : Detection) : Prop :=
  class_id d = class_id d' /\ confidence d = confidence d' /\
  bbox d = bbox d' /\ keypoints d = keypoints d'.

(** [cfg] with [confidence_aggregation] replaced by [m]. *)
Definition with_aggregation (cfg : FusionConfig) (m : string) : FusionConfig :=
  mkFusionConfig (strategy cfg) (min_backends_agree cfg) (iou_threshold cfg)
    (prefer_pose_from cfg) m (backend_weights cfg).

(** Two detections of one class: [A] from YOLO at 0.9 and [B] from
    DeepLabCut at 0.6, with IoU 81/119. *)
Definition det_a : Detection :=
  mkDetection 0 "person" "persona" (9 # 10) (10, 10, 100, 100)%Z [] None None.
Definition det_b : Detection :=
  mkDetection 0 "person" "persona" (6 # 10) (20, 20, 110, 110)%Z [] None None.
Definition store0 : list Detection := [det_a; det_b].
Definition result_a : DetectionResult := mkDetectionResult [0%nat] 12 640 480 YOLO.
Definition result_b : DetectionResult := mkDetectionResult [1%nat] 30 640 480 DEEPLABCUT.
Definition engine_config (st : FusionStrategy) (agg : string) : FusionConfig :=
  mkFusionConfig st 2 (1 # 2) None agg [].


(** A pair returned by [_match_detections] whose two sides are present
    has one class and an IoU strictly above the threshold. *)
Definition pair_ok (cfg : FusionConfig) (h : heap) (p : option loc * option loc) : Prop :=
  match p with
  | (Some l1, Some l2) =>
      class_id (read h l1) = class_id (read h l2) /\
      (iou_threshold cfg < calculate_iou (bbox (read h l1)) (bbox (read h l2)))%Q
  | _ => True
  end.

(** Detection [l] of store [h] has confidence at most 1. *)
Definition conf_le1 (h : heap) (l : loc) : Prop := (confidence (read h l) <= 1)%Q.

End FusionSpec.

Module PipelineSpec.
Import Fusion Pipeline.



(** Every key of the dict is an id generated with a counter value not
    above the current counter. *)
Definition ids_below (s : PipelineState) : Prop :=
  Forall (fun kv : string * BackendInstance =>
            exists t c, kv.1 = make_backend_id t c /\ c <= backend_counter s) (backends s).

Section Avail.
Variable detector_available : BackendType -> bool.




End Avail.

Definition fresh_pipeline : PipelineState := mkPipelineState [] default_fusion None 0.

Definition no_sleap (t : BackendType) : bool :=
  match t with SLEAP => false | _ => true end.

End PipelineSpec.

Module ZonesSpec.
Import Zones.

Section Geometry.
Variable Prepared : Type.
Variable contains : Prepared -> Q * Q -> bool.

Implicit Types s : ZoneManager Prepared.

(** The registry invariant kept by [add_zone], [remove_zone] and
    [clear_zones]: every prepared polygon has its zone, stored under its
    own id. *)
Definition registry_ok s : Prop :=
  map_Forall (fun k _ => is_Some (zones _ s !! k)) (prepared_polygons _ s) /\
  map_Forall (fun k z => z_id z = k) (zones _ s).

(** The normalized reference point of an object. *)
Definition norm_point (obj : TrackedObject) (frame_width frame_height : Z) : Q * Q :=
  ((inject_Z (fst (bottom_center obj)) / inject_Z frame_width)%Q,
   (inject_Z (snd (bottom_center obj)) / inject_Z frame_height)%Q).

(** Zone [zid] is registered, enabled, and its polygon contains [pt]. *)
Definition zone_hit s (pt : Q * Q) (zid : string) : Prop :=
  exists p z, prepared_polygons _ s !! zid = Some p /\ zones _ s !! zid = Some z /\
    enabled z = true /\ contains p pt = true.

Definition previous_zones s (obj : TrackedObject) : gset string :=
  default ∅ (object_zones _ s !! obj_tracker_id obj).

(** The events [check_objects] emits for one object in state [s]. *)
Definition object_event s (obj : TrackedObject) (frame_width frame_height : Z)
    (timestamp : Q) (ev : ZoneEvent) : Prop :=
  exists zid z, (zones _ s !! zid = Some z) /\
    ((zone_hit s (norm_point obj frame_width frame_height) zid /\
      (zid ∉ previous_zones s obj) /\ ev = make_event obj zid z "enter" timestamp) \/
     (zone_hit s (norm_point obj frame_width frame_height) zid /\
      (zid ∈ previous_zones s obj) /\ ev = make_event obj zid z "inside" timestamp) \/
     (~ zone_hit s (norm_point obj frame_width frame_height) zid /\
      (zid ∈ previous_zones s obj) /\ ev = make_event obj zid z "exit" timestamp)).

End Geometry.

Arguments registry_ok {Prepared} s.
Arguments zone_hit {Prepared} contains s pt zid.
Arguments previous_zones {Prepared} s obj.
Arguments object_event {Prepared} contains s obj frame_width frame_height timestamp ev.

(** Concrete geometry: [Polygon(points)] as shapely builds it from numeric
    points. The empty list is the empty polygon. Otherwise the shell ring
    is closed (the first point is appended unless the last one equals it),
    and a ring of fewer than 4 coordinates raises [ValueError]. The
    prepared polygon is the point list. *)
Definition point_eqb (a b : Q * Q) : bool := Qeq_bool (fst a) (fst b) && Qeq_bool (snd a) (snd b).

Definition shapely_polygon (pts : list (Q * Q)) : option (list (Q * Q)) :=
  match pts with
  | [] => Some []
  | p0 :: _ =>
      let ring_len := match last pts with
                      | Some pl => if point_eqb pl p0 then length pts else S (length pts)
                      | None => S (length pts)
                      end in
      if (ring_len <? 4)%nat then None else Some pts
  end.

(** [contains] for axis-aligned rectangles: the point is strictly inside
    the bounding box of the vertices. *)
Definition rect_contains (pts : list (Q * Q)) (pt : Q * Q) : bool :=
  match pts with
  | [] => false
  | (x0, y0) :: rest =>
      let min_x := fold_left py_min (map fst rest) x0 in
      let max_x := fold_left py_max (map fst rest) x0 in
      let min_y := fold_left py_min (map snd rest) y0 in
      let max_y := fold_left py_max (map snd rest) y0 in
      qlt min_x (fst pt) && qlt (fst pt) max_x && qlt min_y (snd pt) && qlt (snd pt) max_y
  end.

Definition unit_square : list (Q * Q) := [(0, 0); (1, 0); (1, 1); (0, 1)]%Q.

Definition pool : Zone := mkZone "pool" "Piscina" DANGER unit_square "#ef4444" true.

Definition swimmer : TrackedObject := mkTracked 7 "persona" (50, 50).

Definition empty_manager : ZoneManager (list (Q * Q)) := mkZoneManager _ ∅ ∅ ∅.

Definition pool_manager : ZoneManager (list (Q * Q)) :=
  fst (add_zone _ shapely_polygon empty_manager pool).

Definition pool_off : Zone := mkZone "pool" "Piscina" DANGER unit_square "#ef4444" false.

(** A manager whose snapshot has [swimmer] in [pool], with [pool] disabled. *)
Definition disabled_pool_manager : ZoneManager (list (Q * Q)) :=
  mkZoneManager _ {[ "pool" := pool_off ]} {[ "pool" := unit_square ]} {[ 7 := {[ "pool" ]} ]}.

End ZonesSpec.

Module AlertsSpec.
Import Alerts.

(** [ev] is an event of the same (identity, zone, class) as [e], of kind [kind]. *)
Definition pair_event (e ev : ZoneEvent) (kind : string) : Prop :=
  ev_tracker_id ev = ev_tracker_id e /\ ev_zone_id ev = ev_zone_id e /\
  ev_class_name ev = ev_class_name e /\ event_type ev = kind.

(** The counter value [process_zone_events] computes for a qualifying event. *)
Definition next_count (n : Notifier) (ev : ZoneEvent) : Z :=
  if String.eqb (event_type ev) "enter" then 1
  else default 0 (frame_counts n !! get_key (ev_tracker_id ev) (ev_zone_id ev)) + 1.

Definition alert_due (cfg : AlertConfig) (n : Notifier) (ev : ZoneEvent) (now : Q) : bool :=
  negb (next_count n ev <? min_frames_in_zone cfg) &&
  negb (is_in_cooldown cfg n now (ev_class_name ev) (ev_zone_id ev)).

(** The default notifier settings, alerting on the class [Persona]. *)
Definition pool_alerts : AlertConfig := mkAlertConfig true (7 # 10) 3 30 ["Persona"].

Definition pool_event (kind : string) (t : Q) : ZoneEvent :=
  mkZoneEvent 7 "persona" "pool" "Dentro del Agua" DANGER kind t.


End AlertsSpec.

(* ================================================================== *)
(** * Proofs about the fusion engine *)

Module FusionFacts.
Import Fusion FusionSpec.

Lemma iou_self (b : BBox) : valid_box b -> (calculate_iou b b == 1)%Q.
Proof.
  destruct b as [[[x1 y1] x2] y2]. simpl. intros [Hx Hy].
  rewrite !Z.max_id, !Z.min_id.
  destruct (x2 <=? x1) eqn:E1; [apply Z.leb_le in E1; lia|].
  destruct (y2 <=? y1) eqn:E2; [apply Z.leb_le in E2; lia|]. simpl.
  replace ((x2 - x1) * (y2 - y1) + (x2 - x1) * (y2 - y1) - (x2 - x1) * (y2 - y1))
    with ((x2 - x1) * (y2 - y1)) by ring.
  assert (Hp : 0 < (x2 - x1) * (y2 - y1)) by nia.
  apply Z.ltb_lt in Hp as Hb. rewrite Hb.
  field. unfold Qeq. simpl. lia.
Qed.

Lemma iou_disjoint (a b : BBox) :
  disjoint_boxes a b -> calculate_iou a b = 0%Q.
Proof.
  destruct a as [[[a1 a2] a3] a4], b as [[[b1 b2] b3] b4]. unfold disjoint_boxes. simpl.
  intros H.
  destruct (Z.min a3 b3 <=? Z.max a1 b1) eqn:E1; [reflexivity|].
  destruct (Z.min a4 b4 <=? Z.max a2 b2) eqn:E2; [reflexivity|].
  apply Z.leb_gt in E1, E2. exfalso.
  apply (H (Z.max a1 b1) (Z.max a2 b2)). lia.
Qed.

Lemma iou_sym (a b : BBox) : calculate_iou a b = calculate_iou b a.
Proof.
  destruct a as [[[a1 a2] a3] a4], b as [[[b1 b2] b3] b4]. unfold calculate_iou.
  rewrite (Z.max_comm b1 a1), (Z.max_comm b2 a2), (Z.min_comm b3 a3), (Z.min_comm b4 a4).
  rewrite (Z.add_comm ((b3 - b1) * (b4 - b2))). reflexivity.
Qed.


(** ** Reading the store after in-place updates *)

Lemma same_core_refl d : same_core d d.
Proof. repeat split. Qed.

Lemma same_core_trans d1 d2 d3 :
  same_core d1 d2 -> same_core d2 d3 -> same_core d1 d3.
Proof. unfold same_core. intuition congruence. Qed.

Lemma read_write_eq (h : heap) l d :
  (l < length h)%nat -> read (write h l d) l = d.
Proof. intros Hl. unfold read, write. by rewrite list_lookup_insert_eq. Qed.

Lemma read_write_ne (h : heap) l l' d : l <> l' -> read (write h l d) l' = read h l'.
Proof. intros Hne. unfold read, write. by rewrite list_lookup_insert_ne. Qed.

Lemma read_write_update (h : heap) l l' (f : Detection -> Detection) :
  read (write h l (f (read h l))) l' = if decide (l = l') then
    (if decide (l < length h)%nat then f (read h l) else read h l') else read h l'.
Proof.
  destruct (decide (l = l')) as [<-|Hne]; [|by apply read_write_ne].
  destruct (decide (l < length h)%nat); [by apply read_write_eq|].
  unfold write. rewrite list_insert_ge; [done | lia].
Qed.

Lemma tag_write_core (h : heap) l l' b :
  same_core (read (write h l (set_backend_source (read h l) b)) l') (read h l').
Proof.
  rewrite (read_write_update h l l' (fun d => set_backend_source d b)).
  repeat case_decide; subst; (apply same_core_refl || (repeat split)).
Qed.

Lemma tag_all_core (h : heap) b ls l :
  same_core (read (tag_all h b ls) l) (read h l).
Proof.
  revert h. induction ls as [|l0 ls IH]; intros h; simpl; [apply same_core_refl|].
  eapply same_core_trans; [apply IH|apply tag_write_core].
Qed.

Lemma read_alloc (h : heap) d : read (h ++ [d]) (length h) = d.
Proof.
  unfold read. rewrite lookup_app_r by lia. by rewrite Nat.sub_diag.
Qed.


(** ** Consensus over two backends *)

Lemma consensus_pair cfg (h : heap) b1 b2 r1 r2 (l1 l2 : loc) :
  min_backends_agree cfg = 2 -> b1 <> b2 ->
  detections r1 = [l1] -> detections r2 = [l2] ->
  class_id (read h l1) = class_id (read h l2) ->
  (iou_threshold cfg <= calculate_iou (bbox (read h l1)) (bbox (read h l2)))%Q ->
  exists l, snd (consensus_fusion cfg h [(b1, r1); (b2, r2)]) = [l] /\ l = length h /\
    (confidence (read (fst (consensus_fusion cfg h [(b1, r1); (b2, r2)])) l)
      == (confidence (read h l1) + confidence (read h l2)) / 2)%Q.
Proof.
  intros Hmin Hb H1 H2 Hc Hiou.
  set (h1 := tag_all (tag_all h (backend_type r1) [l1]) (backend_type r2) [l2]).
  assert (Hlen : length h1 = length h).
  { unfold h1. simpl. unfold write. by rewrite !length_insert. }
  assert (Hcol : collect_with_ids h [(b1, r1); (b2, r2)] = (h1, [(l1, b1); (l2, b2)])).
  { simpl. rewrite H1, H2. reflexivity. }
  assert (E1 : same_core (read h1 l1) (read h l1)).
  { eapply same_core_trans; [apply tag_all_core|apply tag_all_core]. }
  assert (E2 : same_core (read h1 l2) (read h l2)).
  { eapply same_core_trans; [apply tag_all_core|apply tag_all_core]. }
  clearbody h1.
  destruct E1 as (C1 & F1 & B1 & _), E2 as (C2 & F2 & B2 & _).
  unfold consensus_fusion. rewrite Hcol.
  unfold enumerate. simpl.
  rewrite (bool_decide_false (b1 = b2)) by done.
  rewrite (bool_decide_false (1%nat ∈ (∅ : gset nat))) by set_solver. simpl.
  rewrite C1, C2, B1, B2, Hc, Z.eqb_refl.
  apply Qle_bool_iff in Hiou. rewrite Hiou. simpl.
  rewrite Hmin. simpl.
  rewrite (bool_decide_true (1%nat ∈ ({[0%nat]} ∪ ({[1%nat]} ∪ ∅) : gset nat))) by set_solver.
  simpl.
  eexists. split; [reflexivity|]. split; [exact Hlen|].
  rewrite (bool_decide_false (0%nat ∈ (∅ : gset nat))) by set_solver. simpl.
  rewrite read_alloc. simpl. unfold sum_conf. simpl.
  rewrite F1, F2. field.
Qed.


Lemma enumerate_Forall {A} (P : A -> Prop) (xs : list A) :
  Forall P xs -> Forall (fun x => P (snd x)) (enumerate xs).
Proof.
  unfold enumerate. intros HP. generalize 0%nat as k.
  induction HP as [|x xs Hx Hxs IH]; intros k; simpl; constructor; auto.
Qed.

Lemma consensus_group_one_backend cfg (h : heap) i d1 b js used c ds :
  Forall (fun x : nat * (loc * string) => snd (snd x) = b) js ->
  consensus_group cfg h i d1 b js used c ds = (used, c, ds).
Proof.
  intros Hall. revert used c ds.
  induction Hall as [|[j [l2 b2]] js Hx Hxs IH]; intros used c ds; simpl; [done|].
  simpl in Hx. subst b2. rewrite (bool_decide_true (b = b)) by done.
  rewrite orb_true_r. apply IH.
Qed.

Lemma consensus_loop_one_backend cfg (h : heap) all its used acc b :
  min_backends_agree cfg = 2 ->
  Forall (fun x : nat * (loc * string) => snd (snd x) = b) all ->
  Forall (fun x : nat * (loc * string) => snd (snd x) = b) its ->
  snd (consensus_loop cfg h all its used acc) = acc.
Proof.
  intros Hmin Hall Hits. revert used.
  induction Hits as [|[i [l1 b1]] its Hx Hxs IH]; intros used; simpl; [done|].
  simpl in Hx. subst b1.
  destruct (bool_decide (i ∈ used)); [apply IH|].
  rewrite consensus_group_one_backend by done. rewrite Hmin. apply IH.
Qed.

Lemma collect_with_ids_one_backend (h : heap) rs b0 :
  Forall (fun x : string * DetectionResult => fst x <> b0 -> detections (snd x) = []) rs ->
  Forall (fun x : loc * string => snd x = b0) (snd (collect_with_ids h rs)).
Proof.
  revert h. induction rs as [|[bid r] rs IH]; intros h Hrs; simpl; [constructor|].
  inversion Hrs as [|? ? Hx Hxs]; subst. simpl in Hx.
  destruct (collect_with_ids (tag_all h (backend_type r) (detections r)) rs) as [h2 rest] eqn:E.
  simpl. apply Forall_app. split.
  - destruct (decide (bid = b0)) as [->|Hne].
    + apply Forall_forall. intros x Hin. apply list_elem_of_fmap in Hin as (l & -> & _). done.
    + rewrite (Hx Hne). constructor.
  - specialize (IH (tag_all h (backend_type r) (detections r)) Hxs). rewrite E in IH. exact IH.
Qed.

(** With at least two results but detections from a single backend id,
    no cluster reaches two agreeing backends. *)
Lemma consensus_single_reporter cfg (h : heap) results b0 :
  min_backends_agree cfg = 2 -> (2 <= length results)%nat ->
  Forall (fun x : string * DetectionResult => fst x <> b0 -> detections (snd x) = []) results ->
  snd (consensus_fusion cfg h results) = [].
Proof.
  intros Hmin Hlen Hrs. unfold consensus_fusion.
  destruct (length results <? 2)%nat eqn:E; [apply Nat.ltb_lt in E; lia|].
  pose proof (collect_with_ids_one_backend h results b0 Hrs) as Hb.
  destruct (collect_with_ids h results) as [h1 all_detections]. simpl in Hb.
  apply (consensus_loop_one_backend _ _ _ _ _ _ b0 Hmin);
    apply (enumerate_Forall (fun x : loc * string => snd x = b0)); exact Hb.
Qed.

(** A single result is returned as it is: no agreement is checked. *)
Lemma consensus_single_result cfg (h : heap) b r :
  consensus_fusion cfg h [(b, r)] = (h, detections r).
Proof. reflexivity. Qed.


(** ** Fusion over no successful backend *)

Lemma strategy_no_results cfg (h : heap) : snd (apply_strategy cfg h []) = [].
Proof. unfold apply_strategy. destruct (strategy cfg); reflexivity. Qed.

(** ** The aggregation mode and the strategies *)

Lemma merge_keypoints_mode cfg m : merge_keypoints (with_aggregation cfg m) = merge_keypoints cfg.
Proof. reflexivity. Qed.

Lemma consensus_group_mode cfg m (h : heap) i d1 b js used c ds :
  consensus_group (with_aggregation cfg m) h i d1 b js used c ds
  = consensus_group cfg h i d1 b js used c ds.
Proof.
  revert used c ds. induction js as [|[j [l2 b2]] js IH]; intros used c ds; simpl; [done|].
  rewrite !IH. reflexivity.
Qed.

Lemma consensus_loop_mode cfg m (h : heap) all its used acc :
  consensus_loop (with_aggregation cfg m) h all its used acc
  = consensus_loop cfg h all its used acc.
Proof.
  revert h used acc. induction its as [|[i [l1 b1]] its IH]; intros h used acc; simpl; [done|].
  destruct (bool_decide (i ∈ used)); [apply IH|].
  rewrite consensus_group_mode.
  destruct (consensus_group cfg h i (read h l1) b1 all used 1 [l1]) as [[u c] ds].
  destruct (min_backends_agree cfg <=? c); apply IH.
Qed.

Lemma consensus_fusion_mode cfg m (h : heap) results :
  consensus_fusion (with_aggregation cfg m) h results = consensus_fusion cfg h results.
Proof.
  unfold consensus_fusion. destruct (length results <? 2)%nat; [done|].
  destruct (collect_with_ids h results). apply consensus_loop_mode.
Qed.

Lemma merge_group_mode cfg m (h : heap) i d1 js used group :
  merge_group (with_aggregation cfg m) h i d1 js used group = merge_group cfg h i d1 js used group.
Proof.
  revert used group. induction js as [|[j l2] js IH]; intros used group; simpl; [done|].
  rewrite !IH. reflexivity.
Qed.

Lemma merge_loop_mode cfg m (h : heap) all its used merged :
  merge_loop (with_aggregation cfg m) h all its used merged = merge_loop cfg h all its used merged.
Proof.
  revert h used merged. induction its as [|[i l1] its IH]; intros h used merged; simpl; [done|].
  destruct (bool_decide (i ∈ used)); [apply IH|].
  rewrite merge_group_mode.
  destruct (merge_group cfg h i (read h l1) all used [l1]) as [u g].
  destruct g as [|g0 [|g1 gs]]; apply IH.
Qed.

Lemma parallel_merge_mode cfg m (h : heap) results :
  parallel_merge (with_aggregation cfg m) h results = parallel_merge cfg h results.
Proof.
  unfold parallel_merge. destruct (collect h (map snd results)) as [h1 ds].
  destruct (null ds); [done|]. apply merge_loop_mode.
Qed.

Lemma weighted_fusion_mode cfg m (h : heap) results :
  weighted_fusion (with_aggregation cfg m) h results = weighted_fusion cfg h results.
Proof.
  unfold weighted_fusion. simpl.
  destruct (weigh_results h _ (map snd results)). apply parallel_merge_mode.
Qed.

(** Cascade's merge of a matched pair uses the configured mode. *)
Lemma cascade_pair_mode cfg (h : heap) ly lp :
  confidence (read (fst (cascade_merge cfg h [(Some ly, Some lp)] [])) (length h))
  = aggregate_confidence cfg (confidence (read h ly)) (confidence (read h lp)) /\
  snd (cascade_merge cfg h [(Some ly, Some lp)] []) = [length h].
Proof. simpl. rewrite read_alloc. done. Qed.

(** C8: for boxes with [x1 < x2] and [y1 < y2], [_calculate_iou] of a box
    with itself equals 1, of two boxes sharing no area equals 0, and it is
    symmetric in its two arguments. *)
Theorem iou_box_laws (a b : BBox) (Ha : valid_box a) (Hb : valid_box b) :
  (calculate_iou a a == 1)%Q /\
  (disjoint_boxes a b -> calculate_iou a b = 0%Q) /\
  calculate_iou a b = calculate_iou b a.
Proof.
  split; [by apply iou_self|]. split; [apply iou_disjoint|apply iou_sym].
Qed.

Lemma iou_box_laws_witness :
  valid_box (10, 10, 100, 100)%Z /\ valid_box (200, 200, 300, 300)%Z /\
  (calculate_iou (10, 10, 100, 100)%Z (10, 10, 100, 100)%Z == 1)%Q /\
  (disjoint_boxes (10, 10, 100, 100)%Z (200, 200, 300, 300)%Z ->
     calculate_iou (10, 10, 100, 100)%Z (200, 200, 300, 300)%Z = 0%Q) /\
  calculate_iou (10, 10, 100, 100)%Z (200, 200, 300, 300)%Z =
    calculate_iou (200, 200, 300, 300)%Z (10, 10, 100, 100)%Z.
Proof.
  split; [simpl; lia|]. split; [simpl; lia|].
  apply (iou_box_laws (10, 10, 100, 100)%Z (200, 200, 300, 300)%Z); simpl; lia.
Defined.

(** C3 (amended): consensus with [min_backends_agree = 2]. Two results from
    distinct backend ids, each with one detection, of one class and with
    IoU at or above the threshold, fuse into exactly one new detection whose
    confidence is the mean of the two. With two or more results of which
    only one backend id reports detections, the output is empty. A single
    result, however, is returned as it is, with no agreement check. *)
Theorem consensus_two_backends cfg (h : list Detection) (Hmin : min_backends_agree cfg = 2) :
  (forall b1 b2 r1 r2 (l1 l2 : nat),
     b1 <> b2 -> detections r1 = [l1] -> detections r2 = [l2] ->
     class_id (read h l1) = class_id (read h l2) ->
     (iou_threshold cfg <= calculate_iou (bbox (read h l1)) (bbox (read h l2)))%Q ->
     exists l, snd (consensus_fusion cfg h [(b1, r1); (b2, r2)]) = [l] /\
       (* a new object: the first location past the input store *)
       l = length h /\
       (confidence (read (fst (consensus_fusion cfg h [(b1, r1); (b2, r2)])) l)
         == (confidence (read h l1) + confidence (read h l2)) / 2)%Q) /\
  (forall results b0, (2 <= length results)%nat ->
     Forall (fun x : string * DetectionResult => fst x <> b0 -> detections (snd x) = []) results ->
     snd (consensus_fusion cfg h results) = []) /\
  (forall b r, consensus_fusion cfg h [(b, r)] = (h, detections r)).
Proof.
  split; [|split].
  - intros. by apply consensus_pair.
  - intros. by eapply consensus_single_reporter.
  - intros. apply consensus_single_result.
Qed.

Lemma consensus_two_backends_witness :
  min_backends_agree (engine_config CONSENSUS "max") = 2 /\
  snd (consensus_fusion (engine_config CONSENSUS "max") store0
         [("yolo_1", result_a); ("dlc_1", result_b)]) = [2%nat].
Proof.
  split; [reflexivity|].
  destruct (consensus_two_backends (engine_config CONSENSUS "max") store0 eq_refl) as [Hpair _].
  destruct (Hpair "yolo_1" "dlc_1" result_a result_b 0%nat 1%nat) as (l & Hl & _);
    [discriminate | reflexivity | reflexivity | reflexivity | vm_compute; discriminate |].
  rewrite Hl. vm_compute in Hl. injection Hl as <-. reflexivity.
Defined.

(** C3 counterexample: with only the YOLO backend reporting (a single
    result), consensus returns its detection instead of nothing. *)
Lemma consensus_single_result_kept :
  snd (consensus_fusion (engine_config CONSENSUS "max") store0 [("yolo_1", result_a)]) = [0%nat].
Proof. reflexivity. Qed.

(** C4 (amended): when no backend task returns (the map is empty, or every
    task raised), [process_parallel] returns normally with no detections
    and no backends used; the latency is 0 for an empty map and the
    measured elapsed time otherwise. *)
Theorem no_successful_backend cfg (h : list Detection) w hgt backends elapsed
    (Hnone : await_all backends = []) :
  f_detections (snd (process_parallel cfg h w hgt backends elapsed)) = [] /\
  backends_used (snd (process_parallel cfg h w hgt backends elapsed)) = [] /\
  f_inference_time_ms (snd (process_parallel cfg h w hgt backends elapsed)) =
    match backends with [] => 0%Q | _ => elapsed end.
Proof.
  unfold process_parallel. destruct backends as [|b bs]; [done|].
  rewrite Hnone. pose proof (strategy_no_results cfg h) as E.
  destruct (apply_strategy cfg h []) as [h' ds]. simpl in *. subst ds. done.
Qed.

Lemma no_successful_backend_witness :
  await_all [("yolo_1", Raised)] = [] /\
  f_inference_time_ms (snd (process_parallel (engine_config PARALLEL_MERGE "max") store0 640 480
                              [("yolo_1", Raised)] 5)) = 5%Q.
Proof.
  split; [reflexivity|].
  apply (no_successful_backend (engine_config PARALLEL_MERGE "max") store0 640 480
           [("yolo_1", Raised)] 5). reflexivity.
Defined.

(** C4 counterexample: the only backend raised, yet the reported latency is
    the measured 5 ms, not 0. *)
Lemma failed_backends_report_latency :
  f_inference_time_ms (snd (process_parallel (engine_config PARALLEL_MERGE "max") store0 640 480
                              [("yolo_1", Raised)] 5)) = 5%Q.
Proof. reflexivity. Qed.

(** C5: the configured confidence-aggregation mode does not govern the
    strategies that recompute a cluster's confidence. For the detections
    [A] (0.9) and [B] (0.6) and whatever mode [m] is configured:
    [_parallel_merge] keeps 0.9, the group maximum; [_consensus_fusion]
    gives a new detection with 3/4, the mean; [_weighted_fusion] keeps 0.9,
    the maximum of the weighted confidences 0.9 and 0.72. Under mode
    [min], [_aggregate_confidence] would give 0.6. The one merge that reads
    the mode is cascade's, which the spec calls fixed. *)
Theorem aggregation_mode_ignored (m : string) :
  aggregate_confidence (engine_config PARALLEL_MERGE "min") (9 # 10) (6 # 10) = (6 # 10)%Q /\
  snd (parallel_merge (engine_config PARALLEL_MERGE m) store0
         [("yolo_1", result_a); ("dlc_1", result_b)]) = [0%nat] /\
  confidence (read (fst (parallel_merge (engine_config PARALLEL_MERGE m) store0
         [("yolo_1", result_a); ("dlc_1", result_b)])) 0) = (9 # 10)%Q /\
  snd (consensus_fusion (engine_config CONSENSUS m) store0
         [("yolo_1", result_a); ("dlc_1", result_b)]) = [2%nat] /\
  (confidence (read (fst (consensus_fusion (engine_config CONSENSUS m) store0
         [("yolo_1", result_a); ("dlc_1", result_b)])) 2) == 3 # 4)%Q /\
  snd (weighted_fusion (engine_config WEIGHTED m) store0
         [("yolo_1", result_a); ("dlc_1", result_b)]) = [0%nat] /\
  (confidence (read (fst (weighted_fusion (engine_config WEIGHTED m) store0
         [("yolo_1", result_a); ("dlc_1", result_b)])) 0) == 9 # 10)%Q /\
  (forall cfg (h : list Detection) ly lp,
     confidence (read (fst (cascade_merge cfg h [(Some ly, Some lp)] [])) (length h))
       = aggregate_confidence cfg (confidence (read h ly)) (confidence (read h lp))).
Proof.
  change (engine_config PARALLEL_MERGE m) with (with_aggregation (engine_config PARALLEL_MERGE "max") m).
  change (engine_config CONSENSUS m) with (with_aggregation (engine_config CONSENSUS "max") m).
  change (engine_config WEIGHTED m) with (with_aggregation (engine_config WEIGHTED "max") m).
  rewrite !parallel_merge_mode, !consensus_fusion_mode, !weighted_fusion_mode.
  split; [vm_compute; reflexivity|].
  split; [vm_compute; reflexivity|].
  split; [vm_compute; reflexivity|].
  split; [vm_compute; reflexivity|].
  split; [vm_compute; reflexivity|].
  split; [vm_compute; reflexivity|].
  split; [vm_compute; reflexivity|].
  intros. apply cascade_pair_mode.
Qed.

(** C6: weighted fusion overwrites the confidence of the input detection
    [B] in place: 0.6 before, 0.6 * 1.2 = 0.72 after. *)
Lemma weighted_mutates_input :
  confidence (read store0 1) = (6 # 10)%Q /\
  (confidence (read (fst (weighted_fusion (engine_config WEIGHTED "max") store0
         [("yolo_1", result_a); ("dlc_1", result_b)])) 1) == 18 # 25)%Q.
Proof. vm_compute. split; reflexivity. Qed.

End FusionFacts.

(* ================================================================== *)
(** * Proofs about the pipeline manager *)

Module PipelineFacts.
Import Fusion Pipeline PipelineSpec.

Lemma make_backend_id_inj t1 t2 c1 c2 :
  make_backend_id t1 c1 = make_backend_id t2 c2 -> c1 = c2.
Proof.
  unfold make_backend_id. intros H.
  destruct t1, t2; simpl in H; simplify_eq/=; by apply (inj pretty).
Qed.

Lemma dict_set_fresh {V} (d : list (string * V)) k v :
  Forall (fun kv : string * V => kv.1 <> k) d -> dict_set d k v = d ++ [(k, v)].
Proof.
  induction 1 as [|[k' v'] d Hk Hd IH]; simpl; [done|].
  simpl in Hk. destruct (String.eqb k k') eqn:E.
  - apply String.eqb_eq in E. congruence.
  - by rewrite IH.
Qed.

Section Avail.
Variable detector_available : BackendType -> bool.



End Avail.


End PipelineFacts.

(* ================================================================== *)
(** * Proofs about the zone manager *)

Module ZonesFacts.
Import Zones ZonesSpec.

Section Geometry.
Variable Prepared : Type.
Variable contains : Prepared -> Q * Q -> bool.

Implicit Types s : ZoneManager Prepared.

Lemma scan_zones_spec s pt (items : list (string * Prepared)) :
  registry_ok s ->
  (forall k p, (k, p) ∈ items -> prepared_polygons _ s !! k = Some p) ->
  exists zs, scan_zones _ contains s pt items = Some zs /\
    (forall z, z ∈ zs -> zones _ s !! z_id z = Some z) /\
    forall zid, zid ∈ map z_id zs <->
      exists p z, (zid, p) ∈ items /\ zones _ s !! zid = Some z /\
        enabled z = true /\ contains p pt = true.
Proof.
  intros [Hdom Hid]. induction items as [|[k p] items IH]; intros Hitems; simpl.
  - exists []. split; [done|]. split; [intros z Hin; inversion Hin|].
    intros zid. split; [intros Hin; inversion Hin|].
    intros (p & z & Hin & _). inversion Hin.
  - destruct (Hdom k p) as [z Hz]; [apply Hitems; left|].
    rewrite Hz. simpl.
    destruct IH as (zs & Hzs & Hall & Hmem).
    { intros k' p' Hin. apply Hitems. by right. }
    rewrite Hzs. simpl.
    eexists. split; [reflexivity|].
    assert (Hzk : z_id z = k) by (apply (Hid k z Hz)).
    destruct (enabled z && contains p pt) eqn:Ec.
    + apply andb_true_iff in Ec as [Ee Ec]. split.
      { intros z' Hz'. apply elem_of_cons in Hz' as [->|Hz']; [by rewrite Hzk|auto]. }
      intros zid. simpl. rewrite elem_of_cons, Hmem.
      split.
      * intros [->|(p' & z' & Hin & Hz' & He & Hc)].
        -- exists p, z. rewrite Hzk. split; [left|done].
        -- exists p', z'. split; [by right|done].
      * intros (p' & z' & Hin & Hz' & He & Hc). apply elem_of_cons in Hin as [Heq|Hin].
        -- left. simplify_eq. congruence.
        -- right. exists p', z'. done.
    + split; [done|]. intros zid. rewrite Hmem. split.
      * intros (p' & z' & Hin & Hz' & He & Hc). exists p', z'. split; [by right|done].
      * intros (p' & z' & Hin & Hz' & He & Hc). apply elem_of_cons in Hin as [Heq|Hin].
        -- simplify_eq. rewrite He, Hc in Ec. done.
        -- exists p', z'. done.
Qed.

Lemma check_point_spec s x y fw fh :
  registry_ok s -> fw <> 0 -> fh <> 0 ->
  exists zs, check_point _ contains s x y fw fh = Some zs /\
    (forall z, z ∈ zs -> zones _ s !! z_id z = Some z) /\
    forall zid, zid ∈ map z_id zs <->
      zone_hit contains s ((inject_Z x / inject_Z fw)%Q, (inject_Z y / inject_Z fh)%Q) zid.
Proof.
  intros Hok Hw Hh. unfold check_point.
  rewrite (proj2 (Z.eqb_neq fw 0) Hw), (proj2 (Z.eqb_neq fh 0) Hh). simpl.
  destruct (scan_zones_spec s ((inject_Z x / inject_Z fw)%Q, (inject_Z y / inject_Z fh)%Q)
              (map_to_list (prepared_polygons _ s)) Hok) as (zs & Hzs & Hall & Hmem).
  { intros k p Hin. by apply elem_of_map_to_list. }
  exists zs. split; [done|]. split; [done|].
  intros zid. rewrite Hmem. unfold zone_hit.
  setoid_rewrite elem_of_map_to_list. done.
Qed.

Lemma Forall2_Some_elem {A B} (f : A -> option B) (xs : list A) (ys : list B) :
  Forall2 (fun x y => f x = Some y) xs ys ->
  forall y, y ∈ ys <-> exists x, x ∈ xs /\ f x = Some y.
Proof.
  induction 1 as [|x y' xs ys Hf _ IH]; intros y.
  - split; [intros Hin; inversion Hin|]. intros (x & Hin & _). inversion Hin.
  - rewrite elem_of_cons, IH. split.
    + intros [->|(x' & Hin & Hx)]; [exists x; split; [left|done]|].
      exists x'. split; [by right|done].
    + intros (x' & Hin & Hx). apply elem_of_cons in Hin as [->|Hin].
      * left. congruence.
      * right. eauto.
Qed.

Lemma mapM_elem {A B} (f : A -> option B) (xs : list A) :
  (forall x, x ∈ xs -> is_Some (f x)) ->
  exists ys, mapM f xs = Some ys /\
    forall y, y ∈ ys <-> exists x, x ∈ xs /\ f x = Some y.
Proof.
  intros Hall. destruct (mapM_is_Some_2 f xs) as [ys Hys].
  { apply Forall_forall. intros x Hx. apply Hall. first [done | by apply list_elem_of_In]. }
  exists ys. split; [done|]. apply Forall2_Some_elem. by apply mapM_Some_1.
Qed.

Lemma object_events_spec s obj fw fh ts :
  registry_ok s -> fw <> 0 -> fh <> 0 ->
  exists evs cur, object_events _ contains s obj fw fh ts = Some (evs, cur) /\
    (forall zid, zid ∈ cur <-> zone_hit contains s (norm_point obj fw fh) zid) /\
    (forall ev, ev ∈ evs <-> object_event contains s obj fw fh ts ev).
Proof.
  intros Hok Hw Hh.
  destruct (check_point_spec s (fst (bottom_center obj)) (snd (bottom_center obj)) fw fh Hok Hw Hh)
    as (zs & Hzs & Hall & Hmem).
  unfold object_events. rewrite Hzs. simpl.
  set (cur := list_to_set (map z_id zs) : gset string).
  assert (Hcur : forall zid, zid ∈ cur <-> zone_hit contains s (norm_point obj fw fh) zid).
  { intros zid. unfold cur. rewrite elem_of_list_to_set. apply Hmem. }
  fold (previous_zones s obj).
  set (prev := previous_zones s obj).
  assert (Hreg : forall zid, zid ∈ cur -> exists z, zones _ s !! zid = Some z).
  { intros zid Hz. apply Hcur in Hz as (p & z & _ & Hz & _). eauto. }
  destruct (mapM_elem (fun zid => zone ← zones _ s !! zid; Some (make_event obj zid zone "enter" ts))
              (elements (cur ∖ prev))) as (ent & Hent & Hentm).
  { intros zid Hin. rewrite elem_of_elements, elem_of_difference in Hin. destruct Hin as [Hin _].
    destruct (Hreg zid Hin) as [z Hz]. rewrite Hz. simpl. eauto. }
  rewrite Hent. simpl.
  destruct (mapM_elem (fun zid => zone ← zones _ s !! zid; Some (make_event obj zid zone "inside" ts))
              (elements (cur ∩ prev))) as (ins & Hins & Hinsm).
  { intros zid Hin. rewrite elem_of_elements, elem_of_intersection in Hin. destruct Hin as [Hin _].
    destruct (Hreg zid Hin) as [z Hz]. rewrite Hz. simpl. eauto. }
  rewrite Hins. simpl.
  eexists _, cur. split; [reflexivity|]. split; [done|].
  intros ev. rewrite !elem_of_app, Hentm, Hinsm, list_elem_of_omap.
  unfold object_event. fold prev. setoid_rewrite elem_of_elements.
  setoid_rewrite elem_of_difference. setoid_rewrite elem_of_intersection.
  setoid_rewrite <- Hcur.
  split.
  - intros [(zid & [Hc Hp] & Hf)|[(zid & [Hc Hp] & Hf)|(zid & [Hp Hc] & Hf)]];
      destruct (zones _ s !! zid) as [z|] eqn:Hz; simpl in Hf; simplify_eq;
      exists zid, z; split; auto.
  - intros (zid & z & Hz & [(Hc & Hp & ->)|[(Hc & Hp & ->)|(Hc & Hp & ->)]]).
    + left. exists zid. rewrite Hz. auto.
    + right; left. exists zid. rewrite Hz. auto.
    + right; right. exists zid. rewrite Hz. auto.
Qed.

Lemma check_objects_loop_spec s objs fw fh ts acc cmap :
  registry_ok s -> fw <> 0 -> fh <> 0 ->
  exists evs cmap', check_objects_loop _ contains s objs fw fh ts acc cmap = Some (evs, cmap') /\
    (forall ev, ev ∈ evs <-> ev ∈ acc \/ exists obj, obj ∈ objs /\ object_event contains s obj fw fh ts ev) /\
    (forall tid, tid ∉ map obj_tracker_id objs -> cmap' !! tid = cmap !! tid) /\
    (NoDup (map obj_tracker_id objs) -> forall obj, obj ∈ objs ->
       exists cur, cmap' !! obj_tracker_id obj = Some cur /\
         forall zid, zid ∈ cur <-> zone_hit contains s (norm_point obj fw fh) zid).
Proof.
  intros Hok Hw Hh. revert acc cmap.
  induction objs as [|obj objs IH]; intros acc cmap; simpl.
  - exists acc, cmap. split; [done|]. split; [|split].
    + intros ev. split; [auto|]. intros [?|(obj & Hin & _)]; [done|inversion Hin].
    + done.
    + intros _ obj Hin. inversion Hin.
  - destruct (object_events_spec s obj fw fh ts Hok Hw Hh) as (evs & cur & Hoe & Hcur & Hevs).
    rewrite Hoe. simpl.
    destruct (IH (acc ++ evs) (<[obj_tracker_id obj := cur]> cmap))
      as (evs' & cmap' & Hl & Hm & Hother & Hsnap).
    exists evs', cmap'. split; [done|]. split; [|split].
    + intros ev. rewrite Hm, elem_of_app, Hevs. split.
      * intros [[?|?]|(o & Hin & Ho)]; [auto| |].
        -- right. exists obj. split; [left|done].
        -- right. exists o. split; [by right|done].
      * intros [?|(o & Hin & Ho)]; [auto|]. apply elem_of_cons in Hin as [->|Hin]; [auto|].
        right. eauto.
    + intros tid Htid. rewrite Hother.
      * apply lookup_insert_ne. intros Heq. apply Htid. rewrite <- Heq. left.
      * intros Hin. apply Htid. by right.
    + intros Hnd o Hin. apply NoDup_cons in Hnd as [Hnotin Hnd].
      apply elem_of_cons in Hin as [->|Hin].
      * exists cur. rewrite Hother by done. rewrite lookup_insert_eq. done.
      * by apply Hsnap.
Qed.

Lemma check_objects_spec s objs fw fh ts :
  registry_ok s -> fw <> 0 -> fh <> 0 ->
  exists evs s', check_objects _ contains s objs fw fh ts = Some (evs, s') /\
    zones _ s' = zones _ s /\ prepared_polygons _ s' = prepared_polygons _ s /\
    (forall ev, ev ∈ evs <-> exists obj, obj ∈ objs /\ object_event contains s obj fw fh ts ev) /\
    (forall tid, tid ∉ map obj_tracker_id objs -> object_zones _ s' !! tid = None) /\
    (NoDup (map obj_tracker_id objs) -> forall obj, obj ∈ objs ->
       exists cur, object_zones _ s' !! obj_tracker_id obj = Some cur /\
         forall zid, zid ∈ cur <-> zone_hit contains s (norm_point obj fw fh) zid).
Proof.
  intros Hok Hw Hh. unfold check_objects.
  destruct (check_objects_loop_spec s objs fw fh ts [] ∅ Hok Hw Hh)
    as (evs & cmap & Hl & Hm & Hother & Hsnap).
  rewrite Hl. simpl. eexists _, _. split; [reflexivity|]. simpl.
  split; [done|]. split; [done|]. split; [|split].
  - intros ev. rewrite Hm. split; [intros [Hin|?]; [inversion Hin|done]|auto].
  - intros tid Htid. rewrite Hother by done. apply lookup_empty.
  - done.
Qed.

(** C2 (amended): one call of [ZoneManager.check_objects] on a consistent
    registry and a non-empty frame. It returns normally; the events
    are exactly, per listed object and registered zone: [enter] if the zone
    is enabled and its polygon contains the object's normalized point but
    the zone is not in the identity's stored snapshot, [inside] if it
    contains the point and is in the snapshot, [exit] if it is in the
    snapshot, registered and no longer containing the point. The new
    snapshot of each listed identity is the set of zones containing its
    point; the snapshot of an unlisted identity is dropped, with no event. *)
Theorem check_objects_transitions s objs fw fh ts
    (Hok : registry_ok s) (Hw : fw <> 0) (Hh : fh <> 0) :
  exists evs s', check_objects _ contains s objs fw fh ts = Some (evs, s') /\
    (forall ev, ev ∈ evs <-> exists obj, obj ∈ objs /\ object_event contains s obj fw fh ts ev) /\
    (forall tid, tid ∉ map obj_tracker_id objs -> object_zones _ s' !! tid = None) /\
    (NoDup (map obj_tracker_id objs) -> forall obj, obj ∈ objs ->
       exists cur, object_zones _ s' !! obj_tracker_id obj = Some cur /\
         forall zid, zid ∈ cur <-> zone_hit contains s (norm_point obj fw fh) zid).
Proof.
  destruct (check_objects_spec s objs fw fh ts Hok Hw Hh)
    as (evs & s' & Hc & _ & _ & Hm & Hgone & Hsnap).
  exists evs, s'. auto.
Qed.

(** C10: if identity [obj] has zone [zid] in its stored snapshot and the
    zone is still registered but disabled, the next [check_objects] call
    listing [obj] emits the [exit] event for ([obj], [zid]); every emitted
    event names a registered zone, so a deleted zone gets no [exit]. *)
Theorem disabled_zone_exit s objs fw fh ts obj zid z
    (Hok : registry_ok s) (Hw : fw <> 0) (Hh : fh <> 0)
    (Hobj : obj ∈ objs) (Hprev : zid ∈ previous_zones s obj)
    (Hz : zones _ s !! zid = Some z) (Hoff : enabled z = false) :
  exists evs s', check_objects _ contains s objs fw fh ts = Some (evs, s') /\
    make_event obj zid z "exit" ts ∈ evs /\
    forall ev, ev ∈ evs -> is_Some (zones _ s !! ev_zone_id ev).
Proof.
  destruct (check_objects_spec s objs fw fh ts Hok Hw Hh)
    as (evs & s' & Hc & _ & _ & Hm & _ & _).
  exists evs, s'. split; [done|]. split.
  - apply Hm. exists obj. split; [done|]. exists zid, z. split; [done|].
    right; right. split; [|done].
    intros (p & z' & _ & Hz' & He & _). congruence.
  - intros ev Hev. apply Hm in Hev as (o & _ & zid' & z' & Hz' & Hcase).
    destruct Hcase as [(_ & _ & ->)|[(_ & _ & ->)|(_ & _ & ->)]]; simpl; eauto.
Qed.

End Geometry.

(** C7 (amended): [ZoneManager.add_zone] does no validation of its own.
    When the geometry library builds the prepared polygon, whatever the
    number of points, the zone and polygon are stored under the zone id and
    the call returns; the call raises exactly when the library raises. *)
Theorem add_zone_outcome {Prepared} (make_prepared : list (Q * Q) -> option Prepared)
    (s : ZoneManager Prepared) (zone : Zone) :
  match make_prepared (polygon zone) with
  | Some p => add_zone _ make_prepared s zone =
      (mkZoneManager _ (<[z_id zone := zone]> (zones _ s))
         (<[z_id zone := p]> (prepared_polygons _ s)) (object_zones _ s), Returned)
  | None => snd (add_zone _ make_prepared s zone) = Raised
  end.
Proof. unfold add_zone. by destruct (make_prepared (polygon zone)). Qed.

(** C2 counterexample: [swimmer] enters [pool] in frame 1 and is absent in
    frame 2; frame 2 emits no event at all, in particular no [exit]. *)
Lemma absent_identity_no_exit :
  match check_objects _ rect_contains pool_manager [swimmer] 100 100 1 with
  | Some (evs1, s1) =>
      evs1 = [make_event swimmer "pool" pool "enter" 1] /\
      fst <$> check_objects _ rect_contains s1 [] 100 100 2 = Some []
  | None => False
  end.
Proof. vm_compute. split; reflexivity. Qed.

(** C7 counterexample: an empty point list, which shapely accepts as the
    empty polygon, is stored without error. *)
Lemma empty_polygon_accepted :
  let z := mkZone "pool" "Piscina" DANGER [] "#ef4444" true in
  snd (add_zone _ shapely_polygon pool_manager z) = Returned /\
  zones _ (fst (add_zone _ shapely_polygon pool_manager z)) !! "pool" = Some z.
Proof. vm_compute. split; reflexivity. Qed.

Lemma check_objects_transitions_witness :
  registry_ok pool_manager /\ exists evs s',
    check_objects _ rect_contains pool_manager [swimmer] 100 100 1 = Some (evs, s') /\
    (forall ev, ev ∈ evs <-> exists obj, obj ∈ [swimmer] /\
       object_event rect_contains pool_manager obj 100 100 1 ev) /\
    (forall tid, tid ∉ map obj_tracker_id [swimmer] -> object_zones _ s' !! tid = None) /\
    (NoDup (map obj_tracker_id [swimmer]) -> forall obj, obj ∈ [swimmer] ->
       exists cur, object_zones _ s' !! obj_tracker_id obj = Some cur /\
         forall zid, zid ∈ cur <-> zone_hit rect_contains pool_manager (norm_point obj 100 100) zid).
Proof.
  split; [unfold registry_ok; split; apply (bool_decide_unpack _); vm_compute; exact I|].
  apply (check_objects_transitions _ rect_contains pool_manager [swimmer] 100 100 1);
    [unfold registry_ok; split; apply (bool_decide_unpack _); vm_compute; exact I | lia | lia].
Defined.

Lemma disabled_zone_exit_witness :
  registry_ok disabled_pool_manager /\ "pool" ∈ previous_zones disabled_pool_manager swimmer /\
  exists evs s', check_objects _ rect_contains disabled_pool_manager [swimmer] 100 100 3 = Some (evs, s') /\
    make_event swimmer "pool" pool_off "exit" 3 ∈ evs /\
    forall ev, ev ∈ evs -> is_Some (zones _ disabled_pool_manager !! ev_zone_id ev).
Proof.
  split; [unfold registry_ok; split; apply (bool_decide_unpack _); vm_compute; exact I|].
  split; [vm_compute; set_solver|].
  apply (disabled_zone_exit _ rect_contains disabled_pool_manager [swimmer] 100 100 3 swimmer "pool" pool_off).
  - unfold registry_ok; split; apply (bool_decide_unpack _); vm_compute; exact I.
  - lia.
  - lia.
  - left.
  - vm_compute. set_solver.
  - reflexivity.
  - reflexivity.
Defined.

End ZonesFacts.

(* ================================================================== *)
(** * Proofs about the alert notifier *)

Module AlertsFacts.
Import Alerts AlertsSpec.

Lemma run_app cfg n xs ys :
  run cfg n (xs ++ ys) =
    let '(n1, a1) := run cfg n xs in let '(n2, a2) := run cfg n1 ys in (n2, a1 ++ a2).
Proof.
  revert n. induction xs as [|[now evs] xs IH]; intros n; simpl.
  - by destruct (run cfg n ys).
  - destruct (process_zone_events cfg n evs now) as [n1 a1].
    rewrite IH. destruct (run cfg n1 xs) as [n2 a2]. by destruct (run cfg n2 ys).
Qed.

Lemma process_single cfg n ev now :
  al_enabled cfg = true ->
  (event_type ev = "enter" \/ event_type ev = "inside") ->
  class_enabled cfg (ev_class_name ev) = true ->
  exists n', process_zone_events cfg n [ev] now =
      (n', if alert_due cfg n ev now then [create_alert ev] else []) /\
    frame_counts n' !! get_key (ev_tracker_id ev) (ev_zone_id ev) = Some (next_count n ev) /\
    last_alerts n' =
      (if alert_due cfg n ev now
       then <[get_cooldown_key (ev_class_name ev) (ev_zone_id ev) := now]> (last_alerts n)
       else last_alerts n).
Proof.
  intros Hen Hkind Hcls. unfold process_zone_events. rewrite Hen. simpl.
  assert (Hq : (String.eqb (event_type ev) "enter" || String.eqb (event_type ev) "inside") = true).
  { destruct Hkind as [-> | ->]; reflexivity. }
  rewrite Hq, Hcls. simpl.
  unfold alert_due, next_count, is_in_cooldown. simpl.
  set (key := get_key (ev_tracker_id ev) (ev_zone_id ev)).
  set (fc := if String.eqb (event_type ev) "enter" then 1
             else default 0 (frame_counts n !! key) + 1).
  set (ck := get_cooldown_key (ev_class_name ev) (ev_zone_id ev)).
  set (cool := qlt (now - default 0%Q (last_alerts n !! ck))%Q (cooldown_seconds cfg)).
  assert (Hlook : forall m : gmap string Z,
    m !! key = Some fc ->
    filter (fun kv : string * Z => kv.1 ∈ (list_to_set [key] : gset string)) m !! key = Some fc).
  { intros m Hm. apply map_lookup_filter_Some. split; [done|]. simpl. set_solver. }
  destruct (fc <? min_frames_in_zone cfg) eqn:Hlt; simpl.
  - eexists. split; [reflexivity|]. split; [|reflexivity]. simpl.
    apply Hlook. apply lookup_insert_eq.
  - destruct cool eqn:Hc; simpl.
    + eexists. split; [reflexivity|]. split; [|reflexivity]. simpl.
      apply Hlook. apply lookup_insert_eq.
    + assert (Hfire : ((fc =? min_frames_in_zone cfg) ||
                       ((min_frames_in_zone cfg <? fc) && true)) = true).
      { apply Z.ltb_ge in Hlt. rewrite andb_true_r.
        destruct (Z.eq_dec fc (min_frames_in_zone cfg)) as [E|E].
        - rewrite E, Z.eqb_refl. done.
        - apply orb_true_iff. right. apply Z.ltb_lt. lia. }
      rewrite Hfire. simpl.
      eexists. split; [reflexivity|]. split; [|reflexivity]. simpl.
      apply Hlook. apply lookup_insert_eq.
Qed.

Lemma qlt_true a b : (a < b)%Q -> qlt a b = true.
Proof.
  intros H. unfold qlt. destruct (Qle_bool b a) eqn:E; [|done].
  apply Qle_bool_iff in E. exfalso. apply (Qlt_not_le a b); done.
Qed.

Lemma qlt_false a b : (b <= a)%Q -> qlt a b = false.
Proof. intros H. unfold qlt. apply Qle_bool_iff in H. by rewrite H. Qed.

Lemma pair_event_count n e ev kind :
  pair_event e ev kind ->
  next_count n ev = (if String.eqb kind "enter" then 1
     else default 0 (frame_counts n !! get_key (ev_tracker_id e) (ev_zone_id e)) + 1).
Proof. intros (Ht & Hz & _ & Hk). unfold next_count. by rewrite Ht, Hz, Hk. Qed.

Lemma pair_event_due cfg n e ev kind now :
  pair_event e ev kind ->
  alert_due cfg n ev now =
    negb ((if String.eqb kind "enter" then 1
           else default 0 (frame_counts n !! get_key (ev_tracker_id e) (ev_zone_id e)) + 1)
          <? min_frames_in_zone cfg) &&
    negb (qlt (now - default 0%Q (last_alerts n !! get_cooldown_key (ev_class_name e) (ev_zone_id e)))%Q
            (cooldown_seconds cfg)).
Proof.
  intros Hp. unfold alert_due. rewrite (pair_event_count n e ev kind Hp).
  destruct Hp as (Ht & Hz & Hc & Hk). unfold is_in_cooldown. by rewrite Hz, Hc.
Qed.

Lemma pair_event_single cfg n e ev kind now :
  al_enabled cfg = true -> class_enabled cfg (ev_class_name e) = true ->
  (kind = "enter" \/ kind = "inside") -> pair_event e ev kind ->
  exists n', process_zone_events cfg n [ev] now =
      (n', if alert_due cfg n ev now then [create_alert ev] else []) /\
    frame_counts n' !! get_key (ev_tracker_id e) (ev_zone_id e) = Some (next_count n ev) /\
    last_alerts n' =
      (if alert_due cfg n ev now
       then <[get_cooldown_key (ev_class_name e) (ev_zone_id e) := now]> (last_alerts n)
       else last_alerts n).
Proof.
  intros Hen Hcls Hkind Hp.
  destruct (process_single cfg n ev now Hen) as (n' & Hrun & Hf & Hl).
  - destruct Hp as (_ & _ & _ & ->). done.
  - destruct Hp as (_ & _ & -> & _). done.
  - exists n'. destruct Hp as (Ht & Hz & Hc & Hk). rewrite <- Ht, <- Hz, <- Hc. done.
Qed.

(** While the (class, zone) cooldown started at [t0] is running, a stream
    of [inside] events of the pair raises nothing and keeps the count at
    or above the minimum. *)
Lemma run_quiet cfg e t0 (frames : list (Q * ZoneEvent)) n c :
  al_enabled cfg = true -> class_enabled cfg (ev_class_name e) = true ->
  Forall (fun m => pair_event e m.2 "inside" /\ (m.1 - t0 < cooldown_seconds cfg)%Q) frames ->
  frame_counts n !! get_key (ev_tracker_id e) (ev_zone_id e) = Some c ->
  min_frames_in_zone cfg <= c ->
  last_alerts n !! get_cooldown_key (ev_class_name e) (ev_zone_id e) = Some t0 ->
  exists n' c', run cfg n (map (fun m => (m.1, [m.2])) frames) = (n', map (fun _ => []) frames) /\
    frame_counts n' !! get_key (ev_tracker_id e) (ev_zone_id e) = Some c' /\
    min_frames_in_zone cfg <= c' /\
    last_alerts n' !! get_cooldown_key (ev_class_name e) (ev_zone_id e) = Some t0.
Proof.
  intros Hen Hcls Hall. revert n c.
  induction Hall as [|[t ev] frames [Hp Ht] _ IH]; intros n c Hc Hmin Hl; simpl in *.
  - exists n, c. auto.
  - destruct (pair_event_single cfg n e ev "inside" t Hen Hcls (or_intror eq_refl) Hp)
      as (n1 & Hrun & Hf & Hl1).
    assert (Hdue : alert_due cfg n ev t = false).
    { rewrite (pair_event_due cfg n e ev "inside" t Hp). simpl. rewrite Hl. simpl.
      rewrite (qlt_true _ _ Ht). apply andb_false_r. }
    rewrite Hdue in Hrun, Hl1. rewrite Hrun.
    rewrite (pair_event_count n e ev "inside" Hp) in Hf. simpl in Hf. rewrite Hc in Hf.
    destruct (IH n1 (c + 1)) as (n2 & c2 & Hr2 & Hf2 & Hm2 & Hl2); [done|lia|by rewrite Hl1|].
    rewrite Hr2. exists n2, c2. auto.
Qed.

Lemma run_cons cfg n now evs calls :
  run cfg n ((now, evs) :: calls) =
    let '(n1, a) := process_zone_events cfg n evs now in
    let '(n2, rest) := run cfg n1 calls in (n2, a :: rest).
Proof. reflexivity. Qed.

(** C1 (amended): one qualifying event per call for a single
    (identity, zone) pair, with [min_frames_in_zone = 3]. The run starts
    from any notifier state in which the pair's counter restarts (the first
    event is [enter], or it is [inside] with no counter stored) and in which
    the (class, zone) cooldown is not running at the third call. The third
    call emits exactly one alert; every later call within
    [cooldown_seconds] of it emits none; the first later call at or past
    the cooldown emits exactly one. *)
Theorem alert_schedule cfg n0 (e1 e2 e3 e4 e5 : ZoneEvent) (mids : list (Q * ZoneEvent))
    (t1 t2 t3 t4 t5 : Q)
    (Hen : al_enabled cfg = true) (Hmin : min_frames_in_zone cfg = 3)
    (Hcls : class_enabled cfg (ev_class_name e1) = true)
    (H1 : event_type e1 = "enter" \/
          (event_type e1 = "inside" /\
           frame_counts n0 !! get_key (ev_tracker_id e1) (ev_zone_id e1) = None))
    (H2 : pair_event e1 e2 "inside") (H3 : pair_event e1 e3 "inside")
    (H4 : pair_event e1 e4 "inside") (H5 : pair_event e1 e5 "inside")
    (Hmids : Forall (fun m => pair_event e1 m.2 "inside" /\
                              (m.1 - t3 < cooldown_seconds cfg)%Q) mids)
    (Hfree : (cooldown_seconds cfg <=
              t3 - default 0 (last_alerts n0 !! get_cooldown_key (ev_class_name e1) (ev_zone_id e1)))%Q)
    (H4t : (t4 - t3 < cooldown_seconds cfg)%Q)
    (H5t : (cooldown_seconds cfg <= t5 - t3)%Q) :
  snd (run cfg n0 ([(t1, [e1]); (t2, [e2]); (t3, [e3]); (t4, [e4])] ++
                   map (fun m => (m.1, [m.2])) mids ++ [(t5, [e5])])) =
    [[]; []; [create_alert e3]; []] ++ map (fun _ => []) mids ++ [[create_alert e5]].
Proof.
  assert (Hp1 : pair_event e1 e1 (event_type e1)) by done.
  assert (Hk1 : event_type e1 = "enter" \/ event_type e1 = "inside") by tauto.
  (* first call: count 1 *)
  destruct (pair_event_single cfg n0 e1 e1 _ t1 Hen Hcls Hk1 Hp1) as (n1 & R1 & F1 & L1).
  assert (C1 : next_count n0 e1 = 1).
  { unfold next_count. destruct H1 as [-> | [-> HN]]; [done|]. by rewrite HN. }
  assert (D1 : alert_due cfg n0 e1 t1 = false).
  { unfold alert_due. rewrite C1, Hmin. done. }
  rewrite D1 in R1, L1. rewrite C1 in F1.
  (* second call: count 2 *)
  destruct (pair_event_single cfg n1 e1 e2 _ t2 Hen Hcls (or_intror eq_refl) H2) as (n2 & R2 & F2 & L2).
  assert (C2 : next_count n1 e2 = 2).
  { rewrite (pair_event_count n1 e1 e2 _ H2). by rewrite F1. }
  assert (D2 : alert_due cfg n1 e2 t2 = false).
  { unfold alert_due. rewrite C2, Hmin. done. }
  rewrite D2 in R2, L2. rewrite C2 in F2.
  (* third call: count 3, cooldown not running *)
  destruct (pair_event_single cfg n2 e1 e3 _ t3 Hen Hcls (or_intror eq_refl) H3) as (n3 & R3 & F3 & L3).
  assert (C3 : next_count n2 e3 = 3).
  { rewrite (pair_event_count n2 e1 e3 _ H3). by rewrite F2. }
  assert (D3 : alert_due cfg n2 e3 t3 = true).
  { rewrite (pair_event_due cfg n2 e1 e3 _ t3 H3). 
    rewrite F2, Hmin, L2, L1. rewrite (qlt_false _ _ Hfree). done. }
  rewrite D3 in R3, L3. rewrite C3 in F3.
  assert (L3' : last_alerts n3 !! get_cooldown_key (ev_class_name e1) (ev_zone_id e1) = Some t3) by (rewrite L3; apply lookup_insert_eq).
  (* calls within the cooldown *)
  destruct (run_quiet cfg e1 t3 ((t4, e4) :: mids) n3 3 Hen Hcls) as (n4 & c4 & R4 & F4 & M4 & L4).
  { constructor; [split; done|done]. }
  { done. }
  { lia. }
  { done. }
  (* the call past the cooldown *)
  destruct (pair_event_single cfg n4 e1 e5 _ t5 Hen Hcls (or_intror eq_refl) H5) as (n5 & R5 & _ & _).
  assert (D5 : alert_due cfg n4 e5 t5 = true).
  { rewrite (pair_event_due cfg n4 e1 e5 _ t5 H5). 
    rewrite F4, L4. simpl. rewrite (qlt_false _ _ H5t).
    destruct (c4 + 1 <? min_frames_in_zone cfg) eqn:E; [apply Z.ltb_lt in E; lia|done]. }
  rewrite D5 in R5.
  change ([(t1, [e1]); (t2, [e2]); (t3, [e3]); (t4, [e4])] ++ map (fun m => (m.1, [m.2])) mids ++ [(t5, [e5])])
    with ((t1, [e1]) :: (t2, [e2]) :: (t3, [e3]) ::
          (map (fun m : Q * ZoneEvent => (m.1, [m.2])) ((t4, e4) :: mids) ++ [(t5, [e5])])).
  rewrite run_cons, R1. cbv beta iota zeta.
  rewrite run_cons, R2. cbv beta iota zeta.
  rewrite run_cons, R3. cbv beta iota zeta.
  rewrite run_app, R4. cbv beta iota zeta.
  rewrite run_cons, R5. reflexivity.
Qed.

(** C1 counterexample: after an alert at 1040, the identity leaves and
    re-enters; the enter at 1042 and the insides at 1043 and 1044 are three
    consecutive qualifying events, and the third raises nothing because
    the (class, zone) cooldown started at 1040 is still running. *)
Lemma reentry_within_cooldown :
  snd (run pool_alerts fresh_notifier
         [(1000, [pool_event "enter" 1000]); (1001, [pool_event "inside" 1001]);
          (1002, [pool_event "inside" 1002]); (1003, [pool_event "inside" 1003]);
          (1040, [pool_event "inside" 1040]); (1041, [pool_event "exit" 1041]);
          (1042, [pool_event "enter" 1042]); (1043, [pool_event "inside" 1043]);
          (1044, [pool_event "inside" 1044])]%Q) =
    [[]; []; [create_alert (pool_event "inside" 1002)]; [];
     [create_alert (pool_event "inside" 1040)]; []; []; []; []].
Proof. vm_compute. reflexivity. Qed.

Lemma alert_schedule_witness :
  snd (run pool_alerts fresh_notifier
         ([(1000, [pool_event "enter" 1000]); (1001, [pool_event "inside" 1001]);
           (1002, [pool_event "inside" 1002]); (1003, [pool_event "inside" 1003])] ++
          map (fun m => (m.1, [m.2])) [(1010, pool_event "inside" 1010)] ++
          [(1032, [pool_event "inside" 1032])])%Q) =
    [[]; []; [create_alert (pool_event "inside" 1002)]; []] ++
    map (fun _ => []) [(1010, pool_event "inside" 1010)%Q] ++
    [[create_alert (pool_event "inside" 1032)]].
Proof.
  apply (alert_schedule pool_alerts fresh_notifier
           (pool_event "enter" 1000) (pool_event "inside" 1001) (pool_event "inside" 1002)
           (pool_event "inside" 1003) (pool_event "inside" 1032)
           [(1010, pool_event "inside" 1010)%Q] 1000 1001 1002 1003 1032).
  - reflexivity.
  - reflexivity.
  - reflexivity.
  - left. reflexivity.
  - repeat split.
  - repeat split.
  - repeat split.
  - repeat split.
  - repeat constructor.
  - vm_compute. discriminate.
  - vm_compute. reflexivity.
  - vm_compute. discriminate.
Defined.

End AlertsFacts.

(* ================================================================== *)
(** * Further properties of the fusion engine *)

Module FusionMore.
Import Fusion FusionSpec FusionFacts.

Lemma inject_Z_div_bounds (i u : Z) : 0 <= i -> i <= u -> 0 < u ->
  (0 <= inject_Z i / inject_Z u <= 1)%Q.
Proof.
  intros Hi Hiu Hu. assert (Hq : (0 < inject_Z u)%Q) by (unfold Qlt; simpl; lia).
  split.
  - apply Qle_shift_div_l; [exact Hq|]. unfold Qle; simpl. lia.
  - apply Qle_shift_div_r; [exact Hq|]. unfold Qle; simpl. lia.
Qed.

(** [_calculate_iou] always returns a value in [0, 1], for any two boxes, including empty, inverted or disjoint ones. *)
Theorem iou_range (a b : BBox) : (0 <= calculate_iou a b <= 1)%Q.
Proof.
  destruct a as [[[a1 a2] a3] a4], b as [[[b1 b2] b3] b4]. unfold calculate_iou.
  destruct (Z.min a3 b3 <=? Z.max a1 b1) eqn:E1; simpl; [split; discriminate|].
  destruct (Z.min a4 b4 <=? Z.max a2 b2) eqn:E2; simpl; [split; discriminate|].
  apply Z.leb_gt in E1, E2.
  match goal with |- context [if 0 <? ?u then _ else _] => destruct (0 <? u) eqn:E3 end;
    [|split; discriminate].
  apply Z.ltb_lt in E3.
  apply inject_Z_div_bounds; [nia| |exact E3].
  assert (Z.min a3 b3 - Z.max a1 b1 <= a3 - a1) by lia.
  assert (Z.min a4 b4 - Z.max a2 b2 <= a4 - a2) by lia.
  assert (Z.min a3 b3 - Z.max a1 b1 <= b3 - b1) by lia.
  assert (Z.min a4 b4 - Z.max a2 b2 <= b4 - b2) by lia.
  nia.
Qed.

Lemma py_max_bounds a b : (Qmin a b <= py_max a b <= Qmax a b)%Q.
Proof.
  unfold py_max, qlt. destruct (Qle_bool b a) eqn:E; simpl.
  - apply Qle_bool_iff in E. split; [apply Q.le_min_l|apply Q.le_max_l].
  - assert (b > a)%Q by (apply Qnot_le_lt; intros H; apply Qle_bool_iff in H; congruence).
    split; [apply Q.le_min_r|apply Q.le_max_r].
Qed.

Lemma py_min_bounds a b : (Qmin a b <= py_min a b <= Qmax a b)%Q.
Proof.
  unfold py_min, qlt. destruct (Qle_bool a b) eqn:E; simpl.
  - apply Qle_bool_iff in E. split; [apply Q.le_min_l|apply Q.le_max_l].
  - split; [apply Q.le_min_r|apply Q.le_max_r].
Qed.

(** [_aggregate_confidence] returns a value between the smaller and the larger of its two inputs, whatever the configured mode (max, min, mean, or an unknown mode that falls back to max). *)
Theorem aggregate_confidence_between cfg c1 c2 :
  (Qmin c1 c2 <= aggregate_confidence cfg c1 c2 <= Qmax c1 c2)%Q.
Proof.
  unfold aggregate_confidence.
  destruct (String.eqb _ "max"); [apply py_max_bounds|].
  destruct (String.eqb _ "min"); [apply py_min_bounds|].
  destruct (String.eqb _ "mean"); [|apply py_max_bounds].
  pose proof (Q.le_min_l c1 c2). pose proof (Q.le_min_r c1 c2).
  pose proof (Q.le_max_l c1 c2). pose proof (Q.le_max_r c1 c2).
  split.
  - apply Qle_shift_div_l; [reflexivity|].
    lra.
  - apply Qle_shift_div_r; [reflexivity|].
    lra.
Qed.

Lemma qlt_spec a b : qlt a b = true <-> (a < b)%Q.
Proof.
  unfold qlt. destruct (Qle_bool b a) eqn:E; simpl.
  - apply Qle_bool_iff in E. split; [discriminate|]. intros H. exfalso. apply (Qlt_not_le _ _ H E).
  - split; [|done]. intros _. apply Qnot_le_lt. intros H. apply Qle_bool_iff in H. congruence.
Qed.

Lemma best_match_loop_spec cfg (h : heap) det1 (InAll : nat * loc -> Prop) its used2 bm biou bi :
  Forall InAll its ->
  ((bm = None /\ bi = None /\ biou = iou_threshold cfg) \/
   (exists idx l2, bm = Some l2 /\ bi = Some idx /\ InAll (idx, l2) /\ (idx ∉ used2) /\
      class_id det1 = class_id (read h l2) /\
      biou = calculate_iou (bbox det1) (bbox (read h l2)) /\ (iou_threshold cfg < biou)%Q)) ->
  let '(bm', biou', bi') := best_match_loop cfg h det1 its used2 bm biou bi in
  (bm' = None /\ bi' = None) \/
  (exists idx l2, bm' = Some l2 /\ bi' = Some idx /\ InAll (idx, l2) /\ (idx ∉ used2) /\
      class_id det1 = class_id (read h l2) /\
      (iou_threshold cfg < calculate_iou (bbox det1) (bbox (read h l2)))%Q).
Proof.
  intros Hall. revert bm biou bi.
  induction Hall as [|[idx l2] its Hx Hxs IH]; intros bm biou bi Hinv; simpl.
  - destruct Hinv as [(-> & -> & _)|(idx & l2 & -> & -> & Hin & Hu & Hc & -> & Hlt)]; [by left|].
    right. exists idx, l2. done.
  - destruct (bool_decide (idx ∈ used2)) eqn:Eu; simpl; [by apply IH|].
    destruct (class_id det1 =? class_id (read h l2)) eqn:Ec; simpl; [|by apply IH].
    destruct (qlt biou (calculate_iou (bbox det1) (bbox (read h l2)))) eqn:Eq; apply IH; [|done].
    apply qlt_spec in Eq. apply bool_decide_eq_false in Eu. apply Z.eqb_eq in Ec.
    right. exists idx, l2. do 6 (split; [done|]).
    destruct Hinv as [(_ & _ & ->)|(? & ? & _ & _ & _ & _ & _ & -> & Hlt)]; [done|].
    eapply Qlt_trans; [exact Hlt|exact Eq].
Qed.

Lemma match_outer_spec cfg (h : heap) ds1 its2 used2 :
  let '(u, rest) := match_outer cfg h ds1 its2 used2 in
  map fst rest = map Some ds1 /\ Forall (pair_ok cfg h) rest /\
  exists J : list (nat * loc), Forall (fun x => x ∈ its2) J /\ NoDup J.*1 /\
    Forall (fun x => x.1 ∉ used2) J /\ u ≡ list_to_set J.*1 ∪ used2 /\ omap snd rest = J.*2.
Proof.
  revert used2. induction ds1 as [|l1 ds1 IH]; intros used2; simpl.
  - split; [done|]. split; [constructor|]. exists []. simpl. repeat split; try constructor; set_solver.
  - pose proof (best_match_loop_spec cfg h (read h l1) (fun x => x ∈ its2) its2 used2 None
                  (iou_threshold cfg) None) as Hb.
    destruct (best_match_loop cfg h (read h l1) its2 used2 None (iou_threshold cfg) None)
      as [[bm biou] bi].
    specialize (Hb (proj2 (Forall_forall _ _) (fun x H => H)) (or_introl (conj eq_refl (conj eq_refl eq_refl)))).
    destruct Hb as [(-> & ->)|(idx & l2 & -> & -> & Hin & Hu & Hc & Hlt)].
    + specialize (IH used2). destruct (match_outer cfg h ds1 its2 used2) as [u rest].
      destruct IH as (H1 & H2 & J & HJ). simpl. split; [by rewrite H1|].
      split; [constructor; [done|exact H2]|]. exists J. done.
    + specialize (IH ({[idx]} ∪ used2)). destruct (match_outer cfg h ds1 its2 ({[idx]} ∪ used2)) as [u rest].
      destruct IH as (H1 & H2 & J & HJin & HJnd & HJu & Hu' & Hsnd). simpl.
      split; [by rewrite H1|]. split; [constructor; [split; done|exact H2]|].
      exists ((idx, l2) :: J). simpl. split; [constructor; done|].
      split.
      { constructor; [|done]. intros Hi. apply list_elem_of_fmap in Hi as ([i l] & Heq & HiJ).
        simpl in Heq. subst i. eapply Forall_forall in HJu; [|exact HiJ]. simpl in HJu. set_solver. }
      split.
      { constructor; [done|]. eapply Forall_impl; [exact HJu|]. intros x Hx. set_solver. }
      split; [set_solver|]. simpl. f_equal. exact Hsnd.
Qed.

Lemma enumerate_lookup {A} (xs : list A) i x : (i, x) ∈ enumerate xs -> xs !! i = Some x.
Proof.
  unfold enumerate. intros H. apply list_elem_of_lookup in H as [k Hk].
  apply lookup_zip_Some in Hk as [Hs Hx]. apply lookup_seq in Hs as [-> _]. done.
Qed.

Lemma enumerate_fst {A} (xs : list A) : (enumerate xs).*1 = seq 0 (length xs).
Proof. unfold enumerate. rewrite fst_zip; [done|]. rewrite length_seq. lia. Qed.

Lemma enumerate_snd {A} (xs : list A) : (enumerate xs).*2 = xs.
Proof. unfold enumerate. rewrite snd_zip; [done|]. rewrite length_seq. lia. Qed.

Lemma omap_fst_some (rest : list (option loc * option loc)) (ds : list loc) :
  map fst rest = map Some ds -> omap fst rest = ds.
Proof.
  revert ds. induction rest as [|[o1 o2] rest IH]; intros [|d ds] H; simpl in *; try done.
  injection H as -> H. f_equal. by apply IH.
Qed.

Lemma omap_fst_unmatched (xs : list (nat * loc)) :
  omap fst (map (fun '(_, l2) => (@None loc, Some l2)) xs) = [].
Proof. induction xs as [|[i l] xs IH]; simpl; done. Qed.

Lemma omap_snd_unmatched (xs : list (nat * loc)) :
  omap snd (map (fun '(_, l2) => (@None loc, Some l2)) xs) = xs.*2.
Proof. induction xs as [|[i l] xs IH]; simpl; [done|]. f_equal. exact IH. Qed.

(** [_match_detections] lists every detection of the first list once, in order, as a left side; the right sides are a permutation of the second list; a pair with both sides has one class and an IoU strictly above the threshold; no pair is empty on both sides. *)
Theorem match_detections_cover cfg (h : heap) ds1 ds2 :
  omap fst (match_detections cfg h ds1 ds2) = ds1 /\
  omap snd (match_detections cfg h ds1 ds2) ≡ₚ ds2 /\
  Forall (pair_ok cfg h) (match_detections cfg h ds1 ds2) /\
  (None, None) ∉ match_detections cfg h ds1 ds2.
Proof.
  unfold match_detections.
  pose proof (match_outer_spec cfg h ds1 (enumerate ds2) ∅) as Hm.
  destruct (match_outer cfg h ds1 (enumerate ds2) ∅) as [u rest].
  destruct Hm as (H1 & H2 & J & HJin & HJnd & _ & Hu & Hsnd).
  set (unm := filter _ (enumerate ds2)).
  split; [rewrite omap_app, omap_fst_unmatched, app_nil_r; by apply omap_fst_some|].
  split.
  { rewrite omap_app, omap_snd_unmatched, Hsnd.
    assert (Hf : J ≡ₚ filter (fun x : nat * loc => x.1 ∈ u) (enumerate ds2)).
    { apply NoDup_Permutation.
      - by apply NoDup_fmap_1 in HJnd.
      - apply NoDup_filter. eapply NoDup_fmap_1. rewrite enumerate_fst. apply NoDup_seq.
      - intros [i l]. rewrite list_elem_of_filter. split.
        + intros Hin. split; [|by eapply Forall_forall in HJin].
          rewrite Hu. simpl. apply elem_of_union_l. apply elem_of_list_to_set.
          apply list_elem_of_fmap. by exists (i, l).
        + intros [Hi Hin]. rewrite Hu in Hi. simpl in Hi.
          apply elem_of_union in Hi as [Hi|Hi]; [|set_solver].
          apply elem_of_list_to_set, list_elem_of_fmap in Hi as ([i' l'] & Heq & HiJ).
          simpl in Heq. subst i'.
          pose proof (proj1 (Forall_forall _ _) HJin _ HiJ) as Hin'.
          apply enumerate_lookup in Hin, Hin'. rewrite Hin in Hin'. injection Hin' as ->. done. }
    assert (Hunm : unm = filter (fun x : nat * loc => ~ (x.1 ∈ u)) (enumerate ds2)).
    { unfold unm. apply list_filter_iff. intros [i l]. simpl. done. }
    rewrite Hunm, Hf, <- fmap_app, filter_app_complement, enumerate_snd. done. }
  split.
  { apply Forall_app. split; [exact H2|]. apply Forall_forall. intros x Hx.
    apply list_elem_of_fmap in Hx as ([i l] & -> & _). simpl. done. }
  intros Hin. apply elem_of_app in Hin as [Hin|Hin].
  - apply (f_equal (fun l => (None : option loc) ∈ l)) in H1.
    assert (Hn : (None : option loc) ∈ map fst rest).
    { apply list_elem_of_fmap. by exists (None, None). }
    rewrite H1 in Hn. apply list_elem_of_fmap in Hn as (? & ? & _). discriminate.
  - apply list_elem_of_fmap in Hin as ([i l] & Heq & _). discriminate.
Qed.

Lemma cascade_merge_length cfg (h : heap) ms fused :
  (None, None) ∉ ms -> length (snd (cascade_merge cfg h ms fused)) = (length fused + length ms)%nat.
Proof.
  revert h fused. induction ms as [|[[ly|] [lp|]] ms IH]; intros h fused Hn; simpl.
  - lia.
  - rewrite IH by set_solver. rewrite length_app. simpl. lia.
  - rewrite IH by set_solver. rewrite length_app. simpl. lia.
  - rewrite IH by set_solver. rewrite length_app. simpl. lia.
  - exfalso. apply Hn. left.
Qed.

Lemma pairs_length_bounds (ms : list (option loc * option loc)) :
  (None, None) ∉ ms ->
  (length (omap fst ms) <= length ms)%nat /\ (length (omap snd ms) <= length ms)%nat /\
  (length ms <= length (omap fst ms) + length (omap snd ms))%nat.
Proof.
  induction ms as [|[[ly|] [lp|]] ms IH]; intros Hn; simpl; [lia| | | |].
  - specialize (IH ltac:(set_solver)). repeat change (list_omap _ _ ?f ?l) with (omap f l). lia.
  - specialize (IH ltac:(set_solver)). repeat change (list_omap _ _ ?f ?l) with (omap f l). lia.
  - specialize (IH ltac:(set_solver)). repeat change (list_omap _ _ ?f ?l) with (omap f l). lia.
  - exfalso. apply Hn. left.
Qed.

(** When a YOLO result and a pose result are found, [_cascade_fusion] returns at least as many detections as the larger of the two results and at most their sum: no detection is dropped. *)
Theorem cascade_keeps_detections cfg (h : heap) results yolo_result pose_result :
  find_roles (map snd results) None None = (Some yolo_result, Some pose_result) ->
  (Nat.max (length (detections yolo_result)) (length (detections pose_result))
     <= length (snd (cascade_fusion cfg h results))
     <= length (detections yolo_result) + length (detections pose_result))%nat.
Proof.
  intros Hr. unfold cascade_fusion. rewrite Hr.
  destruct (match_detections_cover cfg h (detections yolo_result) (detections pose_result))
    as (Hf & Hs & _ & Hn).
  rewrite cascade_merge_length by exact Hn. simpl.
  pose proof (pairs_length_bounds _ Hn) as Hb.
  apply Permutation_length in Hs. rewrite Hf, Hs in Hb. lia.
Qed.

Lemma cascade_keeps_detections_witness :
  find_roles (map snd [("yolo_1", result_a); ("dlc_1", result_b)]) None None
    = (Some result_a, Some result_b) /\
  (1 <= length (snd (cascade_fusion (engine_config CASCADE "max") store0
                       [("yolo_1", result_a); ("dlc_1", result_b)])) <= 2)%nat.
Proof.
  assert (Hr : find_roles (map snd [("yolo_1", result_a); ("dlc_1", result_b)]) None None
                 = (Some result_a, Some result_b)) by reflexivity.
  split; [exact Hr|].
  pose proof (cascade_keeps_detections (engine_config CASCADE "max") store0 _ result_a result_b Hr) as H.
  simpl in H. exact H.
Defined.

Lemma length_write (h : heap) l d : length (write h l d) = length h.
Proof. unfold write. apply length_insert. Qed.

Lemma length_tag_all (h : heap) b ls : length (tag_all h b ls) = length h.
Proof. revert h. induction ls as [|l ls IH]; intros h; simpl; [done|]. by rewrite IH, length_write. Qed.

Lemma collect_spec (h : heap) rs :
  length (fst (collect h rs)) = length h /\ snd (collect h rs) = concat (map detections rs).
Proof.
  revert h. induction rs as [|r rs IH]; intros h; simpl; [done|].
  specialize (IH (tag_all h (backend_type r) (detections r))).
  destruct (collect (tag_all h (backend_type r) (detections r)) rs) as [h2 rest].
  simpl in *. destruct IH as [-> ->]. by rewrite length_tag_all.
Qed.

Lemma merge_group_sub cfg (h : heap) i d1 js used group :
  exists extra, snd (merge_group cfg h i d1 js used group) = group ++ extra /\
    Forall (fun l => l ∈ js.*2) extra.
Proof.
  revert used group. induction js as [|[j l2] js IH]; intros used group; simpl.
  - exists []. by rewrite app_nil_r.
  - destruct ((j <=? i)%nat || bool_decide (j ∈ used)).
    + destruct (IH used group) as (extra & -> & He). exists extra. split; [done|].
      eapply Forall_impl; [exact He|]. intros; set_solver.
    + destruct ((class_id d1 =? class_id (read h l2)) &&
                Qle_bool (iou_threshold cfg) (calculate_iou (bbox d1) (bbox (read h l2)))).
      * destruct (IH ({[j]} ∪ used) (group ++ [l2])) as (extra & -> & He).
        exists (l2 :: extra). rewrite <- app_assoc. split; [done|].
        constructor; [set_solver|]. eapply Forall_impl; [exact He|]. intros; set_solver.
      * destruct (IH used group) as (extra & -> & He). exists extra. split; [done|].
        eapply Forall_impl; [exact He|]. intros; set_solver.
Qed.

Lemma best_of_elem (h : heap) best ls : best_of h best ls ∈ best :: ls.
Proof.
  revert best. induction ls as [|l ls IH]; intros best; simpl; [set_solver|].
  destruct (qlt _ _); [specialize (IH l)|specialize (IH best)]; set_solver.
Qed.

Lemma merge_loop_shape cfg (h : heap) all its used merged :
  Forall (fun l => l ∈ all.*2) its.*2 -> Forall (fun l => l ∈ all.*2) merged ->
  length (fst (merge_loop cfg h all its used merged)) = length h /\
  Forall (fun l => l ∈ all.*2) (snd (merge_loop cfg h all its used merged)) /\
  (length (snd (merge_loop cfg h all its used merged)) <= length merged + length its)%nat.
Proof.
  revert h used merged. induction its as [|[i l1] its IH]; intros h used merged Hits Hm; simpl.
  - split; [done|]. split; [done|lia].
  - simpl in Hits. inversion Hits as [|? ? Hl1 Hits']; subst.
    destruct (bool_decide (i ∈ used)).
    { destruct (IH h used merged Hits' Hm) as (A & B & C). repeat split; [done|done|lia]. }
    destruct (merge_group_sub cfg h i (read h l1) all used [l1]) as (extra & Hg & He).
    destruct (merge_group cfg h i (read h l1) all used [l1]) as [used1 group].
    simpl in Hg. subst group.
    assert (Hall : Forall (fun l => l ∈ all.*2) (l1 :: extra)) by (constructor; done).
    destruct extra as [|g1 grest].
    + destruct (IH h ({[i]} ∪ used1) (merged ++ [l1]) Hits') as (A & B & C).
      { apply Forall_app. split; [done|]. constructor; [done|constructor]. }
      rewrite length_app in C. simpl in C. repeat split; [done|done|lia].
    + set (best := best_of h l1 (g1 :: grest)).
      assert (Hb : best ∈ all.*2).
      { apply (proj1 (Forall_forall _ _) Hall). apply best_of_elem. }
      match goal with |- context [merge_loop cfg ?h2 all its ?u (merged ++ [best])] =>
        destruct (IH h2 u (merged ++ [best]) Hits') as (A & B & C) end.
      { apply Forall_app. split; [done|]. constructor; [done|constructor]. }
      rewrite length_app in C. simpl in C. rewrite !length_write in A.
      repeat split; [done|done|lia].
Qed.

Lemma length_enumerate {A} (xs : list A) : length (enumerate xs) = length xs.
Proof. unfold enumerate. rewrite length_zip, length_seq. lia. Qed.

(** [_parallel_merge] allocates no detection: the store keeps its size, every output is a detection object of one of the input results, and there are at most as many outputs as input detections. *)
Theorem parallel_merge_reuses_inputs cfg (h : heap) results :
  length (fst (parallel_merge cfg h results)) = length h /\
  Forall (fun l => exists r, r ∈ (map snd results) /\ l ∈ detections r) (snd (parallel_merge cfg h results)) /\
  (length (snd (parallel_merge cfg h results)) <= length (concat (map detections (map snd results))))%nat.
Proof.
  unfold parallel_merge.
  destruct (collect_spec h (map snd results)) as [Hl Hs].
  destruct (collect h (map snd results)) as [h1 all_detections]. simpl in Hl, Hs. subst all_detections.
  destruct (null (concat (map detections (map snd results)))).
  { simpl. split; [done|]. split; [constructor|lia]. }
  assert (Hin : Forall (fun l => l ∈ (enumerate (concat (map detections (map snd results)))).*2)
                  (enumerate (concat (map detections (map snd results)))).*2).
  { apply Forall_forall. intros x Hx. exact Hx. }
  destruct (merge_loop_shape cfg h1 _ _ ∅ [] Hin (List.Forall_nil _)) as (A & B & C).
  rewrite enumerate_snd in B. split; [congruence|]. split.
  - eapply Forall_impl; [exact B|]. intros l Hl'.
    apply list_elem_of_In, in_concat in Hl' as (ds & Hds & Hl').
    apply in_map_iff in Hds as (r & <- & Hr). exists r. split; apply list_elem_of_In; done.
  - rewrite length_enumerate in C. simpl in C. lia.
Qed.

Lemma read_ge (h : heap) l : (length h <= l)%nat -> read h l = dummy_det.
Proof. intros Hl. unfold read. by rewrite lookup_ge_None_2. Qed.

Lemma write_keep_conf (h : heap) l l' (f : Detection -> Detection) :
  (forall d, confidence (f d) = confidence d) ->
  confidence (read (write h l (f (read h l))) l') = confidence (read h l').
Proof.
  intros Hf. rewrite read_write_update. repeat case_decide; subst; auto.
Qed.

Lemma write_conf_le1 (h : heap) l l' c :
  (c <= 1)%Q -> conf_le1 h l' \/ l' = l ->
  conf_le1 (write h l (set_confidence (read h l) c)) l'.
Proof.
  intros Hc Hl'. unfold conf_le1. rewrite (read_write_update h l l' (fun d => set_confidence d c)).
  case_decide as E; [subst l'|].
  - case_decide as E2; [done|]. rewrite read_ge by lia. simpl. lra.
  - destruct Hl' as [H|H]; [done|congruence].
Qed.

Lemma py_min_one_le x : (py_min 1 x <= 1)%Q.
Proof.
  unfold py_min. destruct (qlt x 1) eqn:E; [|lra]. apply qlt_spec in E. lra.
Qed.

Lemma py_max_le1 a b : (a <= 1)%Q -> (b <= 1)%Q -> (py_max a b <= 1)%Q.
Proof. unfold py_max. destruct (qlt a b); auto. Qed.

Lemma weigh_all_le1 (h : heap) w b ls l' :
  conf_le1 h l' \/ l' ∈ ls -> conf_le1 (weigh_all h w b ls) l'.
Proof.
  revert h. induction ls as [|l ls IH]; intros h Hl'; simpl.
  - destruct Hl' as [H|H]; [done|set_solver].
  - apply IH.
    destruct (decide (l' ∈ ls)) as [Hin|Hnin]; [by right|left].
    unfold conf_le1. rewrite (write_keep_conf _ l l' (fun d => set_backend_source d b)) by done.
    apply write_conf_le1; [apply py_min_one_le|].
    destruct Hl' as [H|H]; [by left|]. right. set_solver.
Qed.

Lemma weigh_results_le1 (h : heap) weights rs l' :
  conf_le1 h l' \/ l' ∈ snd (weigh_results h weights rs) ->
  conf_le1 (fst (weigh_results h weights rs)) l'.
Proof.
  revert h. induction rs as [|r rs IH]; intros h Hl'; simpl in *.
  - destruct Hl' as [H|H]; [done|set_solver].
  - specialize (IH (weigh_all h (weight_of weights (backend_type r)) (backend_type r) (detections r))).
    destruct (weigh_results _ weights rs) as [h2 rest]. simpl in *. apply IH.
    destruct Hl' as [H|H].
    + left. apply weigh_all_le1. by left.
    + apply elem_of_app in H as [H|H]; [left; apply weigh_all_le1; by right|by right].
Qed.

Lemma tag_all_le1 (h : heap) b ls l : conf_le1 h l -> conf_le1 (tag_all h b ls) l.
Proof.
  unfold conf_le1. destruct (tag_all_core h b ls l) as (_ & -> & _). done.
Qed.

Lemma collect_le1 (h : heap) rs l : conf_le1 h l -> conf_le1 (fst (collect h rs)) l.
Proof.
  revert h. induction rs as [|r rs IH]; intros h Hl; simpl; [done|].
  specialize (IH (tag_all h (backend_type r) (detections r))).
  destruct (collect _ rs) as [h2 rest]. simpl in *. apply IH. by apply tag_all_le1.
Qed.

Lemma max_conf_le1 (h : heap) l ls :
  conf_le1 h l -> Forall (conf_le1 h) ls -> (max_conf h l ls <= 1)%Q.
Proof.
  unfold max_conf, conf_le1. intros Hl Hls. revert Hl. generalize (confidence (read h l)) as m.
  induction Hls as [|x ls Hx Hxs IH]; intros m Hm; simpl; [done|].
  apply IH. by apply py_max_le1.
Qed.

Lemma merge_loop_le1 cfg (h : heap) all its used merged :
  Forall (fun l => l ∈ all.*2) its.*2 ->
  Forall (conf_le1 h) all.*2 ->
  Forall (conf_le1 (fst (merge_loop cfg h all its used merged))) all.*2.
Proof.
  revert h used merged. induction its as [|[i l1] its IH]; intros h used merged Hits Hall; simpl; [done|].
  simpl in Hits. inversion Hits as [|? ? Hl1 Hits']; subst.
  destruct (bool_decide (i ∈ used)); [by apply IH|].
  destruct (merge_group_sub cfg h i (read h l1) all used [l1]) as (extra & Hg & He).
  destruct (merge_group cfg h i (read h l1) all used [l1]) as [used1 group].
  simpl in Hg. subst group.
  destruct extra as [|g1 grest]; [by apply IH|].
  apply IH; [done|].
  set (best := best_of h l1 (g1 :: grest)).
  set (h1 := write h best (set_keypoints (read h best) _)).
  assert (H1 : Forall (conf_le1 h1) all.*2).
  { eapply Forall_impl; [exact Hall|]. intros x Hx. unfold conf_le1 in *.
    unfold h1. rewrite (write_keep_conf _ best x (fun d => set_keypoints d _)) by done. exact Hx. }
  apply Forall_forall. intros x Hx. apply write_conf_le1.
  - apply max_conf_le1.
    + by apply (proj1 (Forall_forall _ _) H1).
    + apply Forall_forall. intros y Hy. apply (proj1 (Forall_forall _ _) H1).
      by apply (proj1 (Forall_forall _ _) He).
  - left. by apply (proj1 (Forall_forall _ _) H1).
Qed.

(** Every detection returned by [_weighted_fusion] has confidence at most 1 in the resulting store, whatever the weights and the input confidences. *)
Theorem weighted_confidence_capped cfg (h : heap) results :
  Forall (fun l => (confidence (read (fst (weighted_fusion cfg h results)) l) <= 1)%Q)
    (snd (weighted_fusion cfg h results)).
Proof.
  unfold weighted_fusion.
  set (weights := if null (backend_weights cfg) then default_weights else backend_weights cfg).
  pose proof (fun l Hl => weigh_results_le1 h weights (map snd results) l (or_intror Hl)) as Hw.
  destruct (weigh_results h weights (map snd results)) as [h1 all_detections]. simpl in Hw.
  unfold parallel_merge. simpl.
  rewrite app_nil_r.
  set (h2 := tag_all h1 YOLO all_detections).
  assert (H2 : Forall (conf_le1 h2) all_detections).
  { apply Forall_forall. intros l Hl. apply tag_all_le1. by apply Hw. }
  destruct (null all_detections); [constructor|].
  assert (Hin : Forall (fun l => l ∈ (enumerate all_detections).*2) (enumerate all_detections).*2).
  { apply Forall_forall. intros x Hx. exact Hx. }
  pose proof (merge_loop_le1 cfg h2 (enumerate all_detections) (enumerate all_detections) ∅ [] Hin)
    as Hle.
  rewrite enumerate_snd in Hle. specialize (Hle H2).
  destruct (merge_loop_shape cfg h2 _ _ ∅ [] Hin (List.Forall_nil _)) as (_ & Hsub & _).
  rewrite enumerate_snd in Hsub.
  eapply Forall_impl; [exact Hsub|]. intros l Hl. by apply (proj1 (Forall_forall _ _) Hle).
Qed.

Lemma read_app_l (h ext : heap) l : (l < length h)%nat -> read (h ++ ext) l = read h l.
Proof. intros Hl. unfold read. by rewrite lookup_app_l. Qed.

Lemma consensus_loop_fresh cfg (h : heap) all its used acc :
  exists ext new,
    fst (consensus_loop cfg h all its used acc) = h ++ ext /\
    snd (consensus_loop cfg h all its used acc) = acc ++ new /\
    NoDup new /\
    Forall (fun l => (length h <= l < length (fst (consensus_loop cfg h all its used acc)))%nat /\
              backend_source (read (fst (consensus_loop cfg h all its used acc)) l) = Some YOLO) new.
Proof.
  revert h used acc. induction its as [|[i [l1 backend1]] its IH]; intros h used acc; simpl.
  { exists [], []. rewrite !app_nil_r. split; [done|]. split; [done|]. split; constructor. }
  destruct (bool_decide (i ∈ used)); [apply IH|].
  destruct (consensus_group cfg h i (read h l1) backend1 all used 1 [l1])
    as [[used1 matching_count] matching_dets].
  destruct (min_backends_agree cfg <=? matching_count); [|apply IH].
  unfold alloc.
  set (merged := mkDetection _ _ _ _ _ _ _ (Some YOLO)).
  destruct (IH (h ++ [merged]) ({[i]} ∪ used1) (acc ++ [length h]))
    as (ext & new & Hh & Hacc & Hnd & Hall).
  rewrite Hh in Hall |- *. rewrite Hacc.
  exists ([merged] ++ ext), (length h :: new).
  rewrite <- !app_assoc. split; [done|]. split; [done|].
  rewrite length_app in Hall. simpl in Hall.
  split.
  - constructor; [|done]. intros Hin.
    apply (proj1 (Forall_forall _ _) Hall) in Hin. lia.
  - constructor.
    + rewrite app_assoc, read_app_l by (rewrite length_app; simpl; lia).
      rewrite read_alloc. rewrite !length_app. simpl. split; [lia|done].
    + eapply Forall_impl; [exact Hall|]. intros l [Hl Hb].
      rewrite <- app_assoc in Hb. rewrite !length_app in Hl |- *. simpl in *. split; [lia|done].
Qed.

Lemma collect_with_ids_heap (h : heap) rs :
  length (fst (collect_with_ids h rs)) = length h /\
  forall l, same_core (read (fst (collect_with_ids h rs)) l) (read h l).
Proof.
  revert h. induction rs as [|[bid r] rs IH]; intros h; simpl.
  { split; [done|]. intros; apply same_core_refl. }
  destruct (IH (tag_all h (backend_type r) (detections r))) as [Hl Hc].
  destruct (collect_with_ids (tag_all h (backend_type r) (detections r)) rs) as [h2 rest].
  simpl in *. split.
  - by rewrite Hl, length_tag_all.
  - intros l. eapply same_core_trans; [apply Hc|apply tag_all_core].
Qed.

(** With at least two results, [_consensus_fusion] returns only fresh detection objects, pairwise distinct and tagged YOLO; the pre-existing detections keep their class, confidence, box and keypoints. *)
Theorem consensus_allocates_fresh cfg (h : heap) results :
  (2 <= length results)%nat ->
  NoDup (snd (consensus_fusion cfg h results)) /\
  Forall (fun l => (length h <= l < length (fst (consensus_fusion cfg h results)))%nat /\
            backend_source (read (fst (consensus_fusion cfg h results)) l) = Some YOLO)
    (snd (consensus_fusion cfg h results)) /\
  (forall l, (l < length h)%nat ->
     same_core (read (fst (consensus_fusion cfg h results)) l) (read h l)).
Proof.
  intros Hlen. unfold consensus_fusion.
  replace (length results <? 2)%nat with false by (symmetry; apply Nat.ltb_ge; lia).
  destruct (collect_with_ids_heap h results) as [Hl Hc].
  destruct (collect_with_ids h results) as [h1 all_detections]. simpl in Hl, Hc.
  destruct (consensus_loop_fresh cfg h1 (enumerate all_detections) (enumerate all_detections) ∅ [])
    as (ext & new & Hh & Hacc & Hnd & Hall).
  rewrite Hacc. simpl. rewrite Hl in Hall. split; [done|]. split; [done|].
  intros l Hlt. rewrite Hh, read_app_l by lia. apply Hc.
Qed.

Lemma consensus_allocates_fresh_witness :
  (2 <= length [("yolo_1", result_a); ("dlc_1", result_b)])%nat /\
  Forall (fun l => (length store0 <= l)%nat)
    (snd (consensus_fusion (engine_config CONSENSUS "max") store0
            [("yolo_1", result_a); ("dlc_1", result_b)])).
Proof.
  split; [simpl; lia|].
  destruct (consensus_allocates_fresh (engine_config CONSENSUS "max") store0
              [("yolo_1", result_a); ("dlc_1", result_b)]) as (_ & Hf & _); [simpl; lia|].
  eapply Forall_impl; [exact Hf|]. intros l [[Hl _] _]. exact Hl.
Defined.

End FusionMore.

(* ================================================================== *)
(** * Further properties of the zone manager *)

Module ZonesMore.
Import Zones ZonesSpec ZonesFacts.

(** [add_zone] (whether it returns or raises), [remove_zone] (in every outcome) and [clear_zones] keep the registry invariant: every prepared polygon has its zone, and every zone is stored under its own id. *)
Theorem registry_ok_kept {P} (make_prepared : list (Q * Q) -> option P) (s : ZoneManager P) :
  registry_ok s ->
  (forall zone, registry_ok (fst (add_zone _ make_prepared s zone))) /\
  (forall zid, registry_ok (fst (remove_zone _ s zid))) /\
  registry_ok (clear_zones _ s).
Proof.
  intros [Hp Hz]. split; [|split].
  - intros zone. unfold add_zone.
    assert (Hz' : map_Forall (fun k z => z_id z = k) (<[z_id zone := zone]> (zones _ s))).
    { by apply map_Forall_insert_2. }
    destruct (make_prepared (polygon zone)) as [p|]; simpl; split; try done.
    + intros k q Hk; simpl in Hk |- *. apply lookup_insert_is_Some'.
      destruct (decide (z_id zone = k)) as [->|Hne]; [by left|right].
      rewrite lookup_insert_ne in Hk by done. by apply (Hp k q).
    + intros k q Hk; simpl in Hk |- *. apply lookup_insert_is_Some'. right. by apply (Hp k q).
  - intros zid. unfold remove_zone.
    destruct (zones _ s !! zid) as [z|] eqn:Ezid; [|by split].
    destruct (prepared_polygons _ s !! zid) as [p|] eqn:Epid; simpl; split.
    + intros k q Hk; simpl in Hk |- *. destruct (decide (zid = k)) as [->|Hne].
      { by rewrite lookup_delete_eq in Hk. }
      rewrite lookup_delete_ne in Hk by done. rewrite lookup_delete_ne by done. by apply (Hp k q).
    + intros k q Hk; simpl in Hk |- *. destruct (decide (zid = k)) as [->|Hne].
      { by rewrite lookup_delete_eq in Hk. }
      rewrite lookup_delete_ne in Hk by done. by apply (Hz k q).
    + intros k q Hk; simpl in Hk |- *. destruct (decide (zid = k)) as [->|Hne]; [congruence|].
      rewrite lookup_delete_ne by done. by apply (Hp k q).
    + intros k q Hk; simpl in Hk |- *. destruct (decide (zid = k)) as [->|Hne].
      { by rewrite lookup_delete_eq in Hk. }
      rewrite lookup_delete_ne in Hk by done. by apply (Hz k q).
  - split; apply map_Forall_empty.
Qed.

Lemma registry_ok_kept_witness :
  registry_ok empty_manager /\ registry_ok (fst (add_zone _ shapely_polygon empty_manager pool)).
Proof.
  assert (H0 : registry_ok empty_manager) by (split; apply map_Forall_empty).
  split; [exact H0|].
  destruct (registry_ok_kept shapely_polygon empty_manager H0) as [Ha _]. apply Ha.
Defined.

(** Removing a zone just added with [add_zone]: when the polygon was built, [remove_zone] returns True and drops the id from both maps; when [add_zone] raised, [remove_zone] raises unless an older polygon was stored under the id, which it then removes. *)
Theorem add_then_remove_zone {P} (make_prepared : list (Q * Q) -> option P)
    (s : ZoneManager P) (zone : Zone) :
  remove_zone _ (fst (add_zone _ make_prepared s zone)) (z_id zone) =
  match make_prepared (polygon zone) with
  | Some _ =>
      (mkZoneManager _ (delete (z_id zone) (zones _ s))
         (delete (z_id zone) (prepared_polygons _ s)) (object_zones _ s), Some true)
  | None =>
      match prepared_polygons _ s !! z_id zone with
      | Some _ =>
          (mkZoneManager _ (delete (z_id zone) (zones _ s))
             (delete (z_id zone) (prepared_polygons _ s)) (object_zones _ s), Some true)
      | None =>
          (mkZoneManager _ (delete (z_id zone) (zones _ s))
             (prepared_polygons _ s) (object_zones _ s), None)
      end
  end.
Proof.
  unfold add_zone, remove_zone.
  destruct (make_prepared (polygon zone)) as [p|]; simpl;
    rewrite lookup_insert_eq; simpl.
  - rewrite lookup_insert_eq, !delete_insert_eq. done.
  - rewrite delete_insert_eq. by destruct (prepared_polygons _ s !! z_id zone).
Qed.

Lemma as_points_encoded (pts : list (Q * Q)) :
  mapM as_point (map (fun '(x, y) => PTuple [PFloat x; PFloat y]) pts) = Some pts.
Proof.
  induction pts as [|[x y] pts IH]; [done|]. simpl. rewrite IH. done.
Qed.

(** [Zone.from_dict] inverts [Zone.to_dict]: decoding the dict of any zone gives back that zone. *)
Theorem zone_dict_roundtrip (z : Zone) : zone_from_dict (zone_to_dict z) = Some z.
Proof.
  destruct z as [zid name t pts col en]. unfold zone_from_dict, zone_to_dict. simpl.
  rewrite as_points_encoded. destruct t; simpl; done.
Qed.

(** [get_danger_events] and [get_warning_events] together return exactly the enter and inside events, up to order: each such event is in one of the two lists. *)
Theorem danger_warning_split (events : list ZoneEvent) :
  get_danger_events events ++ get_warning_events events ≡ₚ filter entry_kind events.
Proof.
  unfold get_danger_events, get_warning_events.
  induction events as [|e evs IH]; [done|]. rewrite !filter_cons.
  destruct (entry_kind e) eqn:Ek;
    destruct (ev_zone_type e) eqn:Et; simpl; rewrite ?Et, ?Ek; simpl;
    repeat (case_bool_decide; try discriminate); simpl; try done.
  - rewrite <- Permutation_middle. by constructor.
  - by constructor.
Qed.

(** [check_objects] on an empty object list emits no event and drops every stored snapshot; on a non-empty list with a zero frame width or height it raises. *)
Theorem check_objects_edges {P} (contains : P -> Q * Q -> bool) (s : ZoneManager P)
    objects fw fh ts :
  (objects = [] ->
     check_objects _ contains s objects fw fh ts =
       Some ([], mkZoneManager _ (zones _ s) (prepared_polygons _ s) ∅)) /\
  (objects <> [] -> (fw = 0 \/ fh = 0) -> check_objects _ contains s objects fw fh ts = None).
Proof.
  split.
  - intros ->. done.
  - intros Hne Hz. destruct objects as [|obj objs]; [done|].
    unfold check_objects. simpl. unfold object_events, check_point.
    replace ((fw =? 0) || (fh =? 0)) with true by (destruct Hz as [->| ->]; [done|by rewrite orb_true_r]).
    done.
Qed.

Lemma check_objects_edges_witness :
  [swimmer] <> [] /\ (0 = 0 \/ 100 = 0) /\
  check_objects _ rect_contains pool_manager [swimmer] 0 100 1 = None.
Proof.
  split; [discriminate|]. split; [left; reflexivity|].
  apply (proj2 (check_objects_edges rect_contains pool_manager [swimmer] 0 100 1) ltac:(discriminate)).
  left; reflexivity.
Defined.

End ZonesMore.

(* ================================================================== *)
(** * Further properties of the alert notifier *)

Module AlertsMore.
Import Alerts AlertsSpec AlertsFacts.

Lemma process_loop_shape cfg now n events alerts :
  exists es, sublist es events /\
    Forall (fun e => Zones.entry_kind e = true /\ class_enabled cfg (ev_class_name e) = true) es /\
    snd (process_loop cfg now n events alerts) = alerts ++ map create_alert es /\
    alert_history (fst (process_loop cfg now n events alerts)) = alert_history n ++ map create_alert es.
Proof.
  revert n alerts. induction events as [|e evs IH]; intros n alerts; simpl.
  { exists []. rewrite !app_nil_r. repeat split; constructor. }
  destruct (String.eqb (event_type e) "enter" || String.eqb (event_type e) "inside") eqn:Ek; simpl;
    [|destruct (IH n alerts) as (es & ? & ? & ? & ?); exists es; repeat split; try done; by constructor].
  destruct (class_enabled cfg (ev_class_name e)) eqn:Ec; simpl;
    [|destruct (IH n alerts) as (es & ? & ? & ? & ?); exists es; repeat split; try done; by constructor].
  set (key := get_key (ev_tracker_id e) (ev_zone_id e)).
  set (fc := if String.eqb (event_type e) "enter" then 1 else default 0 (frame_counts n !! key) + 1).
  set (n1 := mkNotifier (<[key := fc]> (frame_counts n)) (last_alerts n) (alert_history n)).
  assert (Hskip : exists es, sublist es (e :: evs) /\
    Forall (fun e => Zones.entry_kind e = true /\ class_enabled cfg (ev_class_name e) = true) es /\
    snd (process_loop cfg now n1 evs alerts) = alerts ++ map create_alert es /\
    alert_history (fst (process_loop cfg now n1 evs alerts)) = alert_history n ++ map create_alert es).
  { destruct (IH n1 alerts) as (es & ? & ? & ? & ?). exists es. repeat split; try done. by constructor. }
  destruct (fc <? min_frames_in_zone cfg); [exact Hskip|].
  destruct (is_in_cooldown cfg n1 now (ev_class_name e) (ev_zone_id e)); [exact Hskip|].
  case_match; [|exact Hskip].
  match goal with |- context [process_loop cfg now ?n2 evs (alerts ++ [create_alert e])] =>
    destruct (IH n2 (alerts ++ [create_alert e])) as (es & Hsub & Hall & Ha & Hh) end.
  exists (e :: es). split; [by constructor|]. split; [constructor; [unfold Zones.entry_kind; done|done]|].
  rewrite Ha, Hh. simpl. rewrite <- !app_assoc. done.
Qed.

(** [process_zone_events] returns the alerts created from a sub-sequence of its events, in event order, each from an enter or inside event, and appends exactly those alerts to the history. *)
Theorem alerts_from_entry_events cfg n events now :
  exists es, sublist es events /\
    Forall (fun e => Zones.entry_kind e = true) es /\
    snd (process_zone_events cfg n events now) = map create_alert es /\
    alert_history (fst (process_zone_events cfg n events now)) = alert_history n ++ map create_alert es.
Proof.
  unfold process_zone_events. destruct (al_enabled cfg); simpl.
  - destruct (process_loop_shape cfg now n events []) as (es & Hs & Hk & Ha & Hh).
    destruct (process_loop cfg now n events []) as [n1 alerts]. simpl in *.
    exists es. split; [done|]. split; [|by split].
    eapply Forall_impl; [exact Hk|]. intros e [He _]. exact He.
  - exists []. rewrite app_nil_r. repeat split; [apply sublist_nil_l|constructor].
Qed.

(** When alerts are enabled, after [process_zone_events] every stored frame counter belongs to the key of an event of the batch; counters of pairs absent from the batch are dropped. *)
Theorem frame_counts_batch_keys cfg n events now :
  al_enabled cfg = true ->
  forall k v, frame_counts (fst (process_zone_events cfg n events now)) !! k = Some v ->
    exists e, e ∈ events /\ get_key (ev_tracker_id e) (ev_zone_id e) = k.
Proof.
  intros Hen k v. unfold process_zone_events. rewrite Hen. simpl.
  destruct (process_loop cfg now n events []) as [n1 alerts]. simpl.
  intros Hk. apply map_lookup_filter_Some in Hk as [_ Hin]. simpl in Hin.
  apply elem_of_list_to_set in Hin. apply list_elem_of_fmap in Hin as (e & -> & He).
  by exists e.
Qed.

Lemma frame_counts_batch_keys_witness :
  al_enabled pool_alerts = true /\
  frame_counts (fst (process_zone_events pool_alerts fresh_notifier [] 1)) = ∅.
Proof.
  split; [reflexivity|].
  apply map_eq. intros k. rewrite lookup_empty.
  destruct (frame_counts (fst (process_zone_events pool_alerts fresh_notifier [] 1)) !! k) as [v|] eqn:Hk;
    [|reflexivity].
  destruct (frame_counts_batch_keys pool_alerts fresh_notifier [] 1 eq_refl k v Hk) as (e & He & _).
  exfalso. by apply not_elem_of_nil in He.
Defined.

(** [get_recent_alerts] with a positive limit returns the last min(limit, length) alerts of the history, as a suffix; a limit of 0 returns the whole history; a negative limit drops its first -limit alerts. *)
Theorem get_recent_alerts_slice n limit :
  (0 < limit -> exists older, alert_history n = older ++ get_recent_alerts n limit /\
     length (get_recent_alerts n limit) = Nat.min (Z.to_nat limit) (length (alert_history n))) /\
  (limit = 0 -> get_recent_alerts n limit = alert_history n) /\
  (limit < 0 -> get_recent_alerts n limit = drop (Z.to_nat (- limit)) (alert_history n)).
Proof.
  unfold get_recent_alerts, py_slice_from.
  set (h := alert_history n). split; [|split].
  - intros Hl. replace (- limit <? 0) with true by (symmetry; apply Z.ltb_lt; lia).
    exists (take (Z.to_nat (Z.max 0 (- limit + Z.of_nat (length h)))) h).
    split; [symmetry; apply take_drop|].
    rewrite length_drop. lia.
  - intros ->. simpl. rewrite Z.min_l by lia. done.
  - intros Hl. replace (- limit <? 0) with false by (symmetry; apply Z.ltb_ge; lia).
    destruct (Z.le_ge_cases (- limit) (Z.of_nat (length h))).
    + by rewrite Z.min_l.
    + rewrite Z.min_r by lia. rewrite !drop_ge; [done | lia | lia].
Qed.

End AlertsMore.

(* ================================================================== *)
(** * Further properties of the pipeline manager *)

Module PipelineMore.
Import Fusion Pipeline PipelineSpec PipelineFacts.

Lemma dict_get_none {V} (d : list (string * V)) k :
  dict_get d k = None <-> Forall (fun kv : string * V => kv.1 <> k) d.
Proof.
  induction d as [|[k' v'] d IH]; simpl.
  { split; [constructor|done]. }
  destruct (String.eqb k k') eqn:E.
  - apply String.eqb_eq in E as ->. split; [done|]. intros H. inversion H. simpl in *. congruence.
  - apply String.eqb_neq in E. rewrite Forall_cons. simpl. rewrite IH. naive_solver.
Qed.






Lemma backend_fresh (s : PipelineState) t :
  ids_below s ->
  Forall (fun kv : string * BackendInstance => kv.1 <> make_backend_id t (backend_counter s + 1))
    (backends s).
Proof.
  intros Hs. eapply Forall_impl; [exact Hs|]. intros kv (t' & c & Hk & Hc) Heq.
  rewrite Hk in Heq. apply make_backend_id_inj in Heq. lia.
Qed.

(** In a state whose ids all use counter values up to the current counter, [add_backend] increments the counter even when it raises; on success it appends a new instance under a fresh id and never replaces an existing backend. *)
Theorem add_backend_fresh detector_available (s : PipelineState) t model cfg :
  ids_below s ->
  backend_counter (fst (add_backend detector_available s t model cfg)) = backend_counter s + 1 /\
  match snd (add_backend detector_available s t model cfg) with
  | Some bid =>
      bid = make_backend_id t (backend_counter s + 1) /\
      dict_get (backends s) bid = None /\
      backends (fst (add_backend detector_available s t model cfg)) =
        backends s ++ [(bid, mkBackendInstance bid t true model cfg)]
  | None => backends (fst (add_backend detector_available s t model cfg)) = backends s
  end.
Proof.
  intros Hs. pose proof (backend_fresh s t Hs) as Hf.
  unfold add_backend. destruct (detector_available t); simpl; [|done].
  split; [done|]. split; [done|]. split; [by apply dict_get_none|].
  by apply dict_set_fresh.
Qed.

Lemma add_backend_fresh_witness :
  ids_below fresh_pipeline /\
  backends (fst (add_backend no_sleap fresh_pipeline YOLO "yolo11n.pt" None)) =
    [("yolo_1", mkBackendInstance "yolo_1" YOLO true "yolo11n.pt" None)].
Proof.
  assert (H0 : ids_below fresh_pipeline) by constructor.
  split; [exact H0|].
  destruct (add_backend_fresh no_sleap fresh_pipeline YOLO "yolo11n.pt" None H0) as [_ H].
  revert H. vm_compute. intros (_ & _ & H). exact H.
Defined.








Lemma filter_forall {A} (P : A -> Prop) `{forall x, Decision (P x)} (l : list A) :
  Forall P l -> filter P l = l.
Proof.
  induction 1 as [|x l Hx Hl IH]; [done|]. rewrite filter_cons_True by done. by rewrite IH.
Qed.

Lemma keys_not_in {V} (d : list (string * V)) k :
  k ∉ d.*1 -> Forall (fun kv : string * V => kv.1 <> k) d.
Proof.
  intros Hk. apply Forall_forall. intros kv Hin Heq. apply Hk.
  apply list_elem_of_fmap. by exists kv.
Qed.

(** In a backend dict without duplicate ids, disabling a registered backend removes exactly that backend from [get_active_backends] and keeps the others in order. *)
Theorem disable_backend_active (s : PipelineState) bid :
  NoDup (backends s).*1 -> is_Some (dict_get (backends s) bid) ->
  get_active_backends (fst (enable_backend s bid false)) =
    filter (fun kv : string * BackendInstance => kv.1 <> bid) (get_active_backends s).
Proof.
  intros Hnd [i Hi]. unfold enable_backend. rewrite Hi. simpl. unfold get_active_backends.
  destruct s as [d fc ap bc]. simpl in *. clear fc ap bc.
  revert i Hi. induction d as [|[k v] d IH]; intros i Hi; simpl in *; [done|].
  inversion Hnd as [|? ? Hk Hnd']; subst.
  destruct (String.eqb bid k) eqn:E.
  - apply String.eqb_eq in E as ->. injection Hi as <-.
    rewrite filter_cons_False by (simpl; discriminate).
    assert (Hf : filter (fun kv : string * BackendInstance => kv.1 <> k)
                   (filter (fun kv : string * BackendInstance => b_enabled kv.2 = true) d) =
                 filter (fun kv : string * BackendInstance => b_enabled kv.2 = true) d).
    { apply filter_forall. apply Forall_forall. intros kv Hkv.
      apply list_elem_of_filter in Hkv as [_ Hkv].
      exact (proj1 (Forall_forall _ _) (keys_not_in d k Hk) kv Hkv). }
    rewrite filter_cons. case_decide.
    + rewrite filter_cons_False by (simpl; auto). by rewrite Hf.
    + by rewrite Hf.
  - apply String.eqb_neq in E.
    rewrite !filter_cons. case_decide.
    + rewrite filter_cons_True by (simpl; congruence). f_equal. by apply (IH Hnd' i).
    + by apply (IH Hnd' i).
Qed.

Lemma disable_backend_active_witness :
  let s := fst (apply_preset no_sleap fresh_pipeline "high_precision") in
  NoDup (backends s).*1 /\ is_Some (dict_get (backends s) "yolo_1") /\
  map fst (get_active_backends (fst (enable_backend s "yolo_1" false))) = ["deeplabcut_2"].
Proof.
  intros s.
  assert (H1 : NoDup (backends s).*1) by (vm_compute; repeat constructor; set_solver).
  assert (H2 : is_Some (dict_get (backends s) "yolo_1")) by (vm_compute; eexists; reflexivity).
  split; [exact H1|]. split; [exact H2|].
  rewrite (disable_backend_active s "yolo_1" H1 H2). vm_compute. reflexivity.
Defined.

Lemma dict_get_set_eq {V} (d : list (string * V)) k v : dict_get (dict_set d k v) k = Some v.
Proof.
  induction d as [|[k' v'] d IH]; simpl; [by rewrite String.eqb_refl|].
  destruct (String.eqb k k') eqn:E; simpl; [by rewrite String.eqb_refl|by rewrite E].
Qed.

Lemma dict_set_set {V} (d : list (string * V)) k v v' :
  dict_set (dict_set d k v) k v' = dict_set d k v'.
Proof.
  induction d as [|[k' v0] d IH]; simpl; [by rewrite String.eqb_refl|].
  destruct (String.eqb k k') eqn:E; simpl; [by rewrite String.eqb_refl|by rewrite E, IH].
Qed.

Lemma dict_set_get {V} (d : list (string * V)) k v :
  dict_get d k = Some v -> dict_set d k v = d.
Proof.
  induction d as [|[k' v0] d IH]; simpl; [done|].
  destruct (String.eqb k k') eqn:E; intros H.
  - apply String.eqb_eq in E as ->. by injection H as ->.
  - by rewrite IH.
Qed.

(** Disabling an enabled backend and enabling it again restores the manager state, and the second call returns True. *)
Theorem disable_enable_restores (s : PipelineState) bid i :
  dict_get (backends s) bid = Some i -> b_enabled i = true ->
  enable_backend (fst (enable_backend s bid false)) bid true = (s, true).
Proof.
  intros Hi Hen. unfold enable_backend at 2. rewrite Hi. unfold enable_backend. simpl.
  rewrite dict_get_set_eq, dict_set_set.
  replace (set_enabled (set_enabled i false) true) with i
    by (destruct i; simpl in *; by subst).
  rewrite dict_set_get by done. by destruct s.
Qed.

Lemma disable_enable_restores_witness :
  let s := fst (apply_preset no_sleap fresh_pipeline "high_precision") in
  dict_get (backends s) "yolo_1" = Some (mkBackendInstance "yolo_1" YOLO true "yolo11m.pt"
                                           (Some (mkBackendSpec YOLO "yolo11m.pt" None))) /\
  enable_backend (fst (enable_backend s "yolo_1" false)) "yolo_1" true = (s, true).
Proof.
  intros s.
  assert (H1 : dict_get (backends s) "yolo_1" = Some (mkBackendInstance "yolo_1" YOLO true "yolo11m.pt"
                                           (Some (mkBackendSpec YOLO "yolo11m.pt" None))))
    by reflexivity.
  split; [exact H1|]. exact (disable_enable_restores s "yolo_1" _ H1 eq_refl).
Defined.

(** When every backend is disabled, [process_frame] dispatches nothing and returns an empty result with latency 0, no backends used and no raw results. *)
Theorem process_frame_all_disabled (s : PipelineState) (h : heap) w hgt detect elapsed :
  Forall (fun kv : string * BackendInstance => b_enabled kv.2 = false) (backends s) ->
  process_frame s h w hgt detect elapsed =
    (h, mkFused [] 0 w hgt [] (strategy_value (strategy (fusion_config s))) []).
Proof.
  intros Hoff. unfold process_frame, get_active_backends.
  replace (filter _ (backends s)) with (@nil (string * BackendInstance)); [done|].
  induction Hoff as [|kv d Hkv Hd IH]; [done|].
  rewrite filter_cons_False by congruence. exact IH.
Qed.

Lemma process_frame_all_disabled_witness :
  let s := fst (enable_backend (fst (enable_backend
             (fst (apply_preset no_sleap fresh_pipeline "high_precision")) "yolo_1" false))
             "deeplabcut_2" false) in
  Forall (fun kv : string * BackendInstance => b_enabled kv.2 = false) (backends s) /\
  process_frame s [] 640 480 (fun _ => Raised) 5 =
    ([], mkFused [] 0 640 480 [] (strategy_value (strategy (fusion_config s))) []).
Proof.
  intros s.
  assert (H1 : Forall (fun kv : string * BackendInstance => b_enabled kv.2 = false) (backends s))
    by (vm_compute; repeat constructor).
  split; [exact H1|]. exact (process_frame_all_disabled s [] 640 480 (fun _ => Raised) 5 H1).
Defined.



End PipelineMore.

(* ================================================================== *)
(** * The zone and alert stage of the stream *)

Module StreamFacts.
Import Zones Alerts Stream.

(** A frame without tracked objects leaves the zone manager, and thus every identity's snapshot, unchanged, emits no zone event and no alert, and, when alerts are enabled, drops all frame counters. *)
Theorem empty_frame_step {P} (contains : P -> Q * Q -> bool) cfg (zm : ZoneManager P) n w hgt ts now :
  zone_alert_step P contains cfg zm n [] w hgt ts now =
    Some (zm, (if al_enabled cfg then mkNotifier ∅ (last_alerts n) (alert_history n) else n), [], []).
Proof.
  unfold zone_alert_step. simpl. unfold process_zone_events.
  destruct (al_enabled cfg); simpl; [|done].
  do 5 f_equal. apply map_eq. intros k. rewrite lookup_empty.
  apply map_lookup_filter_None. right. intros v _. simpl. set_solver.
Qed.

End StreamFacts.
